(** * LP impermanent-loss estimator: the position-based calculator

    The repository has two TypeScript entry points, [src/index.ts] and
    [src/src/index.ts].  Each defines a function [calculateImpermanentLoss]
    over JavaScript numbers.  Both functions are embedded here, statement by
    statement, over an interface of JavaScript number operations
    ([JSNumber]), which is given two interpretations:

    - [Binary64]: IEEE-754 double precision, the arithmetic the programs
      run on (primitive floats, so every definition evaluates on concrete
      inputs, [toFixed] included);
    - [Ideal]: the real numbers, the arithmetic in which the formulas of
      the specification are written.

    Properties of the control flow are proved for every interpretation,
    algebraic laws over the reals, and concrete runs (rounding, NaN,
    Infinity) are evaluated in binary64. *)

From Stdlib Require Import ZArith Bool String List.
From Stdlib Require Import PrimFloat FloatOps SpecFloat.
From Stdlib Require Uint63.
From Stdlib Require Import Reals Lra Lia.
Import ListNotations.

Set Warnings "-inexact-float".

(** ** JavaScript numbers, as an interface *)

Class JSNumber (num : Type) : Type := {
  js_lit  : Z -> num;              (* an integer literal such as 100 or -5 *)
  js_add  : num -> num -> num;     (* x + y *)
  js_sub  : num -> num -> num;     (* x - y *)
  js_mul  : num -> num -> num;     (* x * y *)
  js_div  : num -> num -> num;     (* x / y *)
  js_sqrt : num -> num;            (* Math.sqrt(x) *)
  js_abs  : num -> num;            (* Math.abs(x) *)
  js_lt   : num -> num -> bool;    (* x < y *)
  js_gt   : num -> num -> bool;    (* x > y *)
  js_isNaN : num -> bool;          (* Number.isNaN(x) *)
  js_isFinite : num -> bool;       (* Number.isFinite(x) *)
  js_toFixed2 : num -> num         (* Number(x.toFixed(2)) *)
}.

Declare Scope js_scope.
Delimit Scope js_scope with js.
Notation "x + y" := (js_add x y) : js_scope.
Notation "x - y" := (js_sub x y) : js_scope.
Notation "x * y" := (js_mul x y) : js_scope.
Notation "x / y" := (js_div x y) : js_scope.
Notation "x <? y" := (js_lt x y) : js_scope.
Notation "x >? y" := (js_gt x y) : js_scope.
Notation "# z" := (js_lit z%Z) (at level 1, format "# z") : js_scope.

(** ** Interpretation 1: IEEE-754 binary64 *)

Module Binary64.

(** A small integer literal as a double (exact below 2^53). *)
Definition lit (z : Z) : float :=
  match z with
  | Z0 => PrimFloat.zero
  | Zpos _ => PrimFloat.of_uint63 (Uint63.of_Z z)
  | Zneg p => PrimFloat.opp (PrimFloat.of_uint63 (Uint63.of_Z (Zpos p)))
  end.

(** [x.toFixed(2)] picks the integer [n] for which [n / 100 - x] is as
    close to zero as possible, the larger [n] on a tie, working on the
    absolute value of the exact number the double stands for.  For the
    double [m * 2^e] this is [floor (m * 2^e * 100 + 1/2)]. *)
Definition toFixed_digits (m : positive) (e : Z) : Z :=
  if (0 <=? e)%Z then (Zpos m * 100 * 2 ^ e)%Z
  else ((2 * (Zpos m * 100) + 2 ^ (- e)) / 2 ^ (- e + 1))%Z.

(** [Number(x.toFixed(2))].  NaN and the infinities print as themselves
    and parse back; both zeros print as "0.00".  From 2^46 on, doubles
    are more than 0.01 apart, so the decimal that [toFixed] prints
    (within 0.005 of [x]; [x] in exponent notation from 1e21 on) parses
    back to [x].  Below 2^46 the digits [n] stay below 2^53, so [n] is a
    double and the correctly rounded quotient [n / 100] is the double
    nearest to the printed decimal, which is what [Number] returns.  A
    negative [x] keeps its sign, also when the digits are all zero. *)
Definition toFixed2 (x : float) : float :=
  match Prim2SF x with
  | S754_nan => x
  | S754_infinity _ => x
  | S754_zero _ => PrimFloat.zero
  | S754_finite s m e =>
      if PrimFloat.leb 0x1p46%float (PrimFloat.abs x) then x
      else
        let q := PrimFloat.div (lit (toFixed_digits m e)) (lit 100) in
        if s then PrimFloat.opp q else q
  end.

#[global] Instance float_JSNumber : JSNumber float := {|
  js_lit := lit;
  js_add := PrimFloat.add;
  js_sub := PrimFloat.sub;
  js_mul := PrimFloat.mul;
  js_div := PrimFloat.div;
  js_sqrt := PrimFloat.sqrt;
  js_abs := PrimFloat.abs;
  js_lt := PrimFloat.ltb;
  js_gt := fun x y => PrimFloat.ltb y x;
  js_isNaN := PrimFloat.is_nan;
  js_isFinite := PrimFloat.is_finite;
  js_toFixed2 := toFixed2
|}.

End Binary64.

(** ** Interpretation 2: exact real arithmetic

    Division and square root are total here ([x / 0] and the root of a
    negative number are 0), where the program gives Infinity or NaN.  A
    property over the reals whose truth depends on such a value is stated
    under hypotheses that exclude it; what the program does there is
    stated in binary64. *)

Module Ideal.

Definition ltb (x y : R) : bool := if Rlt_dec x y then true else false.

(** Rounding to two decimals, ties away from zero, as [toFixed] does on
    the exact value. *)
Definition toFixed2 (x : R) : R :=
  if Rlt_dec x 0
  then (- (IZR (Int_part (100 * (- x) + / 2)) / 100))%R
  else (IZR (Int_part (100 * x + / 2)) / 100)%R.

#[global] Instance R_JSNumber : JSNumber R := {|
  js_lit := IZR;
  js_add := Rplus;
  js_sub := Rminus;
  js_mul := Rmult;
  js_div := Rdiv;
  js_sqrt := sqrt;
  js_abs := Rabs;
  js_lt := ltb;
  js_gt := fun x y => ltb y x;
  js_isNaN := fun _ => false;
  js_isFinite := fun _ => true;
  js_toFixed2 := toFixed2
|}.

End Ideal.

(** ** The result record of both entry points ([interface ILResult]) *)

Record ILResult (num : Type) : Type := mkILResult {
  il_percentage : num;
  il_usd : num;
  initial_value_usd : num;
  current_value_usd : num;
  hodl_value_usd : num;
  fee_apr : num;
  net_apr : num;
  recommendation : string
}.

Arguments mkILResult {num}.
Arguments il_percentage {num}.
Arguments il_usd {num}.
Arguments initial_value_usd {num}.
Arguments current_value_usd {num}.
Arguments hodl_value_usd {num}.
Arguments fee_apr {num}.
Arguments net_apr {num}.
Arguments recommendation {num}.

(** ** Request bodies

    A decoded JSON body: the properties of the object, field names bound to
    JavaScript values. *)

Inductive jsvalue (num : Type) : Type :=
| JSUndefined
| JSNull
| JSBoolean (b : bool)
| JSNum (x : num)
| JSString (s : string).

Arguments JSUndefined {num}.
Arguments JSNull {num}.
Arguments JSBoolean {num}.
Arguments JSNum {num}.
Arguments JSString {num}.

Definition jsobject (num : Type) : Type := list (string * jsvalue num).

Fixpoint get_field {num : Type} (key : string) (o : jsobject num)
  : jsvalue num :=
  match o with
  | [] => JSUndefined
  | (k, v) :: rest => if String.eqb k key then v else get_field key rest
  end.

(** The seven request fields, once validated ([z.infer<typeof ILInputSchema>]). *)
Record ILInput (num : Type) : Type := mkILInput {
  initial_price_0 : num;
  initial_price_1 : num;
  current_price_ratio : num;
  amount_0 : num;
  amount_1 : num;
  fees_earned : num;
  days_held : num
}.

Arguments mkILInput {num}.
Arguments initial_price_0 {num}.
Arguments initial_price_1 {num}.
Arguments current_price_ratio {num}.
Arguments amount_0 {num}.
Arguments amount_1 {num}.
Arguments fees_earned {num}.
Arguments days_held {num}.

(** The request body that carries a given input. *)
Definition body_of {num : Type} (i : ILInput num) : jsobject num :=
  [ ("initial_price_0", JSNum (initial_price_0 i));
    ("initial_price_1", JSNum (initial_price_1 i));
    ("current_price_ratio", JSNum (current_price_ratio i));
    ("amount_0", JSNum (amount_0 i));
    ("amount_1", JSNum (amount_1 i));
    ("fees_earned", JSNum (fees_earned i));
    ("days_held", JSNum (days_held i)) ]%string.

(** Every field of the input is a number in the sense of [z.number()]:
    finite, so neither NaN nor an infinity. *)
Definition all_numbers {num : Type} `{JSNumber num} (i : ILInput num) : bool :=
  forallb js_isFinite
    [ initial_price_0 i; initial_price_1 i; current_price_ratio i;
      amount_0 i; amount_1 i; fees_earned i; days_held i ].

(** ** [src/index.ts] *)

Module IndexTs.
Section Program.
Context {num : Type} `{JSNumber num}.
Local Open Scope js_scope.

Definition calculateImpermanentLoss
    (priceRatio initialPrice0 initialPrice1
     amount0 amount1 feesEarned daysHeld : num) : ILResult num :=
  let k := amount0 * amount1 in
  let newAmount0 := js_sqrt (k / priceRatio) in
  let newAmount1 := js_sqrt (k * priceRatio) in

  let initialValue := amount0 * initialPrice0 + amount1 * initialPrice1 in
  let currentValue :=
    newAmount0 * initialPrice0 * priceRatio + newAmount1 * initialPrice1 in
  let hodlValue :=
    amount0 * initialPrice0 * priceRatio + amount1 * initialPrice1 in

  let ilUsd := currentValue - hodlValue in
  let ilPercentage := (ilUsd / hodlValue) * #100 in

  let annualFees := (feesEarned / daysHeld) * #365 in
  let feeApr := (annualFees / initialValue) * #100 in
  let netApr := feeApr + (ilPercentage / daysHeld) * #365 in

  let recommendation :=
    if (ilPercentage <? #(-5)) && (feeApr <? js_abs ilPercentage)
    then "Consider exiting - IL exceeds fee earnings"%string
    else if netApr >? #10
    then "Strong position - fees outpace IL"%string
    else "Monitor position"%string in

  {| il_percentage := ilPercentage;
     il_usd := ilUsd;
     initial_value_usd := initialValue;
     current_value_usd := currentValue + feesEarned;
     hodl_value_usd := hodlValue;
     fee_apr := feeApr;
     net_apr := netApr;
     recommendation := recommendation |}.

(** The entry point's [handler(ctx)]: the fields of [ctx.input] go to the
    calculator as they are; nothing is checked. *)
Definition handler (input : ILInput num) : ILResult num :=
  calculateImpermanentLoss
    (current_price_ratio input)
    (initial_price_0 input)
    (initial_price_1 input)
    (amount_0 input)
    (amount_1 input)
    (fees_earned input)
    (days_held input).

End Program.
End IndexTs.


(** ** [src/src/index.ts] *)

Module SrcIndexTs.
Section Program.
Context {num : Type} `{JSNumber num}.
Local Open Scope js_scope.

(** [z.number()]: the value must be a number, and a finite one: NaN and
    the infinities (a body can carry [1e999]) are refused.  The schema
    attaches a description to each field and no range check. *)
Definition z_number (v : jsvalue num) : option num :=
  match v with
  | JSNum x => if js_isFinite x then Some x else None
  | _ => None
  end.

(** [ILInputSchema.parse(input)]; [None] stands for the thrown ZodError. *)
Definition ILInputSchema (input : jsobject num) : option (ILInput num) :=
  match z_number (get_field "initial_price_0" input),
        z_number (get_field "initial_price_1" input),
        z_number (get_field "current_price_ratio" input),
        z_number (get_field "amount_0" input),
        z_number (get_field "amount_1" input),
        z_number (get_field "fees_earned" input),
        z_number (get_field "days_held" input) with
  | Some p0, Some p1, Some r, Some a0, Some a1, Some f, Some d =>
      Some (mkILInput p0 p1 r a0 a1 f d)
  | _, _, _, _, _, _, _ => None
  end.

Definition calculateImpermanentLoss
    (priceRatio initialPrice0 initialPrice1
     amount0 amount1 feesEarned daysHeld : num) : ILResult num :=
  (* Calculate new amounts using constant product formula (x * y = k) *)
  let k := amount0 * amount1 in
  let newAmount0 := js_sqrt (k / priceRatio) in
  let newAmount1 := js_sqrt (k * priceRatio) in

  (* Calculate values *)
  let initialValue := amount0 * initialPrice0 + amount1 * initialPrice1 in
  let currentValue :=
    newAmount0 * initialPrice0 * priceRatio + newAmount1 * initialPrice1 in
  let hodlValue :=
    amount0 * initialPrice0 * priceRatio + amount1 * initialPrice1 in

  (* Calculate impermanent loss *)
  let ilUsd := currentValue - hodlValue in
  let ilPercentage := (ilUsd / hodlValue) * #100 in

  (* Calculate APRs *)
  let annualFees := (feesEarned / daysHeld) * #365 in
  let feeApr := (annualFees / initialValue) * #100 in
  let netApr := feeApr + (ilPercentage / daysHeld) * #365 in

  (* Generate recommendation *)
  let recommendation :=
    if (ilPercentage <? #(-5)) && (feeApr <? js_abs ilPercentage)
    then "Consider exiting - IL exceeds fee earnings"%string
    else if netApr >? #10
    then "Strong position - fees outpace IL"%string
    else if netApr >? #0
    then "Profitable position - fees covering IL"%string
    else if ilPercentage <? #(-10)
    then "High IL detected - evaluate exit strategy"%string
    else "Monitor position"%string in

  {| il_percentage := js_toFixed2 ilPercentage;
     il_usd := js_toFixed2 ilUsd;
     initial_value_usd := js_toFixed2 initialValue;
     current_value_usd := js_toFixed2 (currentValue + feesEarned);
     hodl_value_usd := js_toFixed2 hodlValue;
     fee_apr := js_toFixed2 feeApr;
     net_apr := js_toFixed2 netApr;
     recommendation := recommendation |}.

(** The entry point's [handler({ input })]. *)
Definition handler (input : ILInput num) : ILResult num :=
  calculateImpermanentLoss
    (current_price_ratio input)
    (initial_price_0 input)
    (initial_price_1 input)
    (amount_0 input)
    (amount_1 input)
    (fees_earned input)
    (days_held input).

(** What a request gets back from the internal endpoint. *)
Inductive response : Type :=
| Json200 (result : ILResult num)
| Json401                           (* "Unauthorized" *)
| Json500.                          (* configuration error, or a caught exception *)

(** [POST /api/internal/lp-impermanent-loss-estimator].  [expectedKey] is
    the environment's INTERNAL_API_KEY, [apiKey] the request header. *)
Definition internal_api (expectedKey apiKey : option string)
    (body : jsobject num) : response :=
  match expectedKey with
  | None => Json500
  | Some ""%string => Json500
  | Some key =>
      if match apiKey with
         | Some k => negb (String.eqb k key)
         | None => true
         end
      then Json401
      else
        match ILInputSchema body with
        | None => Json500
        | Some validatedInput => Json200 (handler validatedInput)
        end
  end.

End Program.
End SrcIndexTs.

(** ** The specification's formulas

    These follow the wording of the specification (sections 4.1, 4.3 and
    4.4), not the code: they are what the two programs are compared with. *)

Module Spec.
Section Formulas.
Context {num : Type} `{JSNumber num}.
Local Open Scope js_scope.

(** Step 1: invariant product. *)
Definition k (amount0 amount1 : num) : num := amount0 * amount1.

(** Step 2: rebalanced holdings. *)
Definition newAmount0 (priceRatio amount0 amount1 : num) : num :=
  js_sqrt (k amount0 amount1 / priceRatio).

Definition newAmount1 (priceRatio amount0 amount1 : num) : num :=
  js_sqrt (k amount0 amount1 * priceRatio).

(** Step 3. *)
Definition initialValueUsd (initialPrice0 initialPrice1 amount0 amount1 : num)
  : num :=
  amount0 * initialPrice0 + amount1 * initialPrice1.

(** Step 4. *)
Definition hodlValueUsd
    (priceRatio initialPrice0 initialPrice1 amount0 amount1 : num) : num :=
  amount0 * initialPrice0 * priceRatio + amount1 * initialPrice1.

(** Step 5: current value before fees. *)
Definition currentValueUsd
    (priceRatio initialPrice0 initialPrice1 amount0 amount1 : num) : num :=
  newAmount0 priceRatio amount0 amount1 * initialPrice0 * priceRatio
  + newAmount1 priceRatio amount0 amount1 * initialPrice1.

(** Step 6. *)
Definition ilUsd
    (priceRatio initialPrice0 initialPrice1 amount0 amount1 : num) : num :=
  currentValueUsd priceRatio initialPrice0 initialPrice1 amount0 amount1
  - hodlValueUsd priceRatio initialPrice0 initialPrice1 amount0 amount1.

Definition ilPercentage
    (priceRatio initialPrice0 initialPrice1 amount0 amount1 : num) : num :=
  #100 * ilUsd priceRatio initialPrice0 initialPrice1 amount0 amount1
  / hodlValueUsd priceRatio initialPrice0 initialPrice1 amount0 amount1.

(** Step 7: the reported current value. *)
Definition reportedCurrentValueUsd
    (priceRatio initialPrice0 initialPrice1 amount0 amount1 feesEarned : num)
  : num :=
  currentValueUsd priceRatio initialPrice0 initialPrice1 amount0 amount1
  + feesEarned.

(** The closed form for 50/50 pools, as a percentage. *)
Definition closedFormIL (r : num) : num :=
  #100 * (#2 * js_sqrt r / (#1 + r) - #1).

(** Section 4.3, position-based algorithm. *)
Definition annualFees (feesEarned daysHeld : num) : num :=
  feesEarned / daysHeld * #365.

Definition feeApr (feesEarned daysHeld initialValue : num) : num :=
  #100 * annualFees feesEarned daysHeld / initialValue.

(** Section 4.4. *)
Definition netApr (feeApr ilPercentage daysHeld : num) : num :=
  feeApr + ilPercentage / daysHeld * #365.

(** The ordered rule table of section 4.4: condition and label. *)
Definition rule1 (ilPercentage feeApr : num) : bool * string :=
  ((ilPercentage <? #(-5)) && (feeApr <? js_abs ilPercentage),
   "Consider exiting - IL exceeds fee earnings"%string).

Definition rule2 (netApr : num) : bool * string :=
  (netApr >? #10, "Strong position - fees outpace IL"%string).

Definition rule3 (netApr : num) : bool * string :=
  (netApr >? #0, "Profitable position - fees covering IL"%string).

Definition rule4 (ilPercentage : num) : bool * string :=
  (ilPercentage <? #(-10), "High IL detected - evaluate exit strategy"%string).

Definition rule_table (ilPercentage feeApr netApr : num)
  : list (bool * string) :=
  [ rule1 ilPercentage feeApr; rule2 netApr; rule3 netApr; rule4 ilPercentage ].

(** Top to bottom, first match wins. *)
Fixpoint first_match (rules : list (bool * string)) (default : string)
  : string :=
  match rules with
  | [] => default
  | (cond, label) :: rest => if cond then label else first_match rest default
  end.

Definition classify (ilPercentage feeApr netApr : num) : string :=
  first_match (rule_table ilPercentage feeApr netApr) "Monitor position".

End Formulas.

(** The preconditions of section 4.1, read over the reals. *)
Record valid_input
    (priceRatio initialPrice0 initialPrice1
     amount0 amount1 feesEarned daysHeld : R) : Prop := {
  priceRatio_pos : (0 < priceRatio)%R;
  amount0_nonneg : (0 <= amount0)%R;
  amount1_nonneg : (0 <= amount1)%R;
  product_pos : (0 < amount0 * amount1)%R;
  daysHeld_pos : (0 < daysHeld)%R;
  feesEarned_nonneg : (0 <= feesEarned)%R;
  initialPrice0_nonneg : (0 <= initialPrice0)%R;
  initialPrice1_nonneg : (0 <= initialPrice1)%R
}.

End Spec.

(** ** Sample requests, in binary64 *)

Module Samples.
Local Open Scope float_scope.

(** The round-trip example of section 8 of the specification. *)
Definition round_trip : ILInput float := mkILInput 2000 1 1.5 1 1 10 30.

(** The same position on the day of the deposit. *)
Definition zero_days : ILInput float := mkILInput 2000 1 1.5 1 1 10 0.

Definition negative_ratio : ILInput float := mkILInput 2000 1 (-1) 1 1 10 30.

(** Both prices zero: the position has no value. *)
Definition zero_value : ILInput float := mkILInput 0 0 1 1 1 10 30.

(** 1 token worth 4 USD against 4 tokens worth 1 USD, price unchanged. *)
Definition unchanged_price : ILInput float := mkILInput 4 1 1 1 4 0 30.

(** Equal amounts at prices 1 and 3, price ratio 4. *)
Definition unequal_prices : ILInput float := mkILInput 1 3 4 1 1 0 30.

(** Equal amounts at prices 2 and 1, price ratio 4. *)
Definition one_third_loss : ILInput float := mkILInput 2 1 4 1 1 0 30.

(** Equal prices, amounts 3 and [3 * 0.3], price ratio 0.3: the exact loss
    is within rounding of zero. *)
Definition near_zero_loss : ILInput float := mkILInput 3 3 0.3 3 (3 * 0.3) 0 1.

(** A position worth 7300 USD earning 1 USD in one day, price unchanged. *)
Definition five_percent_fees : ILInput float := mkILInput 3650 3650 1 1 1 1 1.

(** A position worth 100 USD held for a year, with [fees] earned. *)
Definition small_fees (fees : float) : ILInput float :=
  mkILInput 50 50 1 1 1 fees 365.

(** The smallest positive double as fees, over two days. *)
Definition tiny_fees (fees : float) : ILInput float :=
  mkILInput 1 1 1 1 1 fees 2.

(** Prices of 1/1024 USD. *)
Definition sub_cent : ILInput float := mkILInput 0x1p-10 0x1p-10 1 1 1 0 1.

(** A position worth 0.1 USD with 0.2 USD of fees. *)
Definition ten_cents : ILInput float := mkILInput 0.05 0.05 1 1 1 0.2 1.

End Samples.

(** ** Proof automation *)

(** Unfolds both programs and the specification's formulas at the reals. *)
Ltac unfold_real_programs :=
  unfold IndexTs.calculateImpermanentLoss, SrcIndexTs.calculateImpermanentLoss,
    Spec.reportedCurrentValueUsd, Spec.ilPercentage, Spec.ilUsd,
    Spec.currentValueUsd, Spec.hodlValueUsd, Spec.initialValueUsd,
    Spec.newAmount0, Spec.newAmount1, Spec.k, Spec.feeApr, Spec.annualFees,
    Spec.netApr, Spec.closedFormIL;
  cbn [il_percentage il_usd initial_value_usd current_value_usd hodl_value_usd
       fee_apr net_apr recommendation
       js_lit js_add js_sub js_mul js_div js_sqrt js_abs js_lt js_gt
       js_isNaN js_isFinite js_toFixed2 Ideal.R_JSNumber].

(** ** Further definitions *)

From Stdlib Require Import Permutation.
From Stdlib Require Import FloatAxioms.

(** The seven keys that [ILInputSchema] reads. *)
Definition field_names : list string :=
  [ "initial_price_0"; "initial_price_1"; "current_price_ratio";
    "amount_0"; "amount_1"; "fees_earned"; "days_held" ]%string.

(** The body binds [key] to the number [x] in a way that [z.number()]
    accepts: [x] is finite. *)
Definition has_number {num : Type} `{JSNumber num}
    (body : jsobject num) (key : string) (x : num) : Prop :=
  get_field key body = JSNum x /\ js_isFinite x = true.

(** A body with every field but [days_held]. *)
Definition body_without_days : jsobject float :=
  [ ("initial_price_0", JSNum 2000%float);
    ("initial_price_1", JSNum 1%float);
    ("current_price_ratio", JSNum 1.5%float);
    ("amount_0", JSNum 1%float);
    ("amount_1", JSNum 1%float);
    ("fees_earned", JSNum 10%float) ]%string.

(** A double that is NaN or an infinity. *)
Definition nonfinite (x : float) : Prop :=
  match Prim2SF x with
  | S754_nan | S754_infinity _ => True
  | S754_zero _ | S754_finite _ _ _ => False
  end.

(** A double that is a zero or a finite non-zero number. *)
Definition finite (x : float) : Prop :=
  match Prim2SF x with
  | S754_zero _ | S754_finite _ _ _ => True
  | S754_nan | S754_infinity _ => False
  end.

(** A double that is NaN or a zero. *)
Definition nan_or_zero (x : float) : Prop :=
  match Prim2SF x with
  | S754_nan | S754_zero _ => True
  | S754_infinity _ | S754_finite _ _ _ => False
  end.

(** A double that is a zero of either sign. *)
Definition zero (x : float) : Prop :=
  match Prim2SF x with
  | S754_zero _ => True
  | _ => False
  end.

(** * Properties *)

(** ** Facts about the reals *)

Section RealFacts.
Local Open Scope R_scope.

Lemma Int_part_unique (x : R) (z : Z) :
  IZR z <= x < IZR z + 1 -> Int_part x = z.
Proof.
  intros [Hlo Hhi].
  unfold Int_part.
  assert (Hup : up x = (z + 1)%Z).
  { symmetry. apply tech_up; rewrite plus_IZR; lra. }
  rewrite Hup. lia.
Qed.

Lemma Int_part_bounds (x : R) : IZR (Int_part x) <= x < IZR (Int_part x) + 1.
Proof.
  unfold Int_part. rewrite minus_IZR.
  destruct (archimed x) as [H1 H2]. lra.
Qed.

Lemma amounts_pos (a0 a1 : R) :
  0 <= a0 -> 0 <= a1 -> 0 < a0 * a1 -> 0 < a0 /\ 0 < a1.
Proof.
  intros [H0 | H0] [H1 | H1] Hk; subst; lra.
Qed.

Lemma div_scale_nonpos (x h : R) : x <= 0 -> 0 < h -> x / h * 100 <= 0.
Proof.
  intros Hx Hh.
  assert (0 < / h) by (apply Rinv_0_lt_compat; assumption).
  unfold Rdiv. nra.
Qed.

(** The pool's token-0 holding, revalued at the moved price, is worth as
    much as [sqrt (k * r)] units. *)
Lemma sqrt_div_times (k r : R) :
  0 < k -> 0 < r -> sqrt (k / r) * r = sqrt (k * r).
Proof.
  intros Hk Hr.
  rewrite sqrt_div by lra.
  rewrite sqrt_mult by lra.
  assert (Hs : 0 < sqrt r) by (apply sqrt_lt_R0; exact Hr).
  rewrite <- (sqrt_sqrt r) at 2 by lra.
  field. lra.
Qed.

(** Two-decimal rounding over the reals. *)

Lemma toFixed2_nonneg_val (x : R) (n : Z) :
  0 <= x -> IZR n <= 100 * x + / 2 < IZR n + 1 ->
  Ideal.toFixed2 x = IZR n / 100.
Proof.
  intros Hx Hn. unfold Ideal.toFixed2.
  destruct (Rlt_dec x 0) as [Hneg | _]; [lra |].
  rewrite (Int_part_unique _ n Hn). reflexivity.
Qed.

Lemma toFixed2_neg_val (x : R) (n : Z) :
  x < 0 -> IZR n <= 100 * (- x) + / 2 < IZR n + 1 ->
  Ideal.toFixed2 x = - (IZR n / 100).
Proof.
  intros Hx Hn. unfold Ideal.toFixed2.
  destruct (Rlt_dec x 0) as [_ | Hpos]; [| lra].
  rewrite (Int_part_unique _ n Hn). reflexivity.
Qed.

Lemma toFixed2_grid (x : R) : exists n : Z, Ideal.toFixed2 x = IZR n / 100.
Proof.
  unfold Ideal.toFixed2. destruct (Rlt_dec x 0).
  - exists (- Int_part (100 * - x + / 2))%Z. rewrite opp_IZR. lra.
  - eexists. reflexivity.
Qed.

Lemma toFixed2_error (x : R) : Rabs (Ideal.toFixed2 x - x) <= / 200.
Proof.
  unfold Ideal.toFixed2. destruct (Rlt_dec x 0).
  - pose proof (Int_part_bounds (100 * - x + / 2)) as [H1 H2].
    apply Rabs_le. lra.
  - pose proof (Int_part_bounds (100 * x + / 2)) as [H1 H2].
    apply Rabs_le. lra.
Qed.

Lemma toFixed2_nonpos (x : R) : x <= 0 -> Ideal.toFixed2 x <= 0.
Proof.
  intros Hx. unfold Ideal.toFixed2. destruct (Rlt_dec x 0).
  - pose proof (Int_part_bounds (100 * - x + / 2)) as [H1 H2].
    assert (Hz : (0 <= Int_part (100 * - x + / 2))%Z).
    { apply le_IZR. apply Rnot_lt_le. intros Hlt.
      apply lt_IZR in Hlt.
      assert (IZR (Int_part (100 * - x + / 2)) <= -1)
        by (apply IZR_le; lia).
      lra. }
    apply IZR_le in Hz. lra.
  - assert (x = 0) by lra. subst x.
    rewrite (Int_part_unique _ 0%Z); lra.
Qed.

Lemma toFixed2_0 : Ideal.toFixed2 0 = 0.
Proof. rewrite (toFixed2_nonneg_val 0 0%Z); lra. Qed.

End RealFacts.

Section OverTheReals.
Local Open Scope R_scope.

(** C1 (as amended).  In exact arithmetic, for every input satisfying the
    preconditions, the fields returned by [src/index.ts] satisfy the step
    equations of section 4.1, and each numeric field returned by
    [src/src/index.ts] is the value of the same equation rounded to two
    decimals. *)
Theorem C1_step_equations (r p0 p1 a0 a1 f d : R) :
  Spec.valid_input r p0 p1 a0 a1 f d ->
  let u := IndexTs.calculateImpermanentLoss r p0 p1 a0 a1 f d in
  let s := SrcIndexTs.calculateImpermanentLoss r p0 p1 a0 a1 f d in
  let pre_fee := Spec.currentValueUsd r p0 p1 a0 a1 in
  (initial_value_usd u = a0 * p0 + a1 * p1
   /\ hodl_value_usd u = a0 * p0 * r + a1 * p1
   /\ pre_fee = sqrt (a0 * a1 / r) * p0 * r + sqrt (a0 * a1 * r) * p1
   /\ il_usd u = pre_fee - hodl_value_usd u
   /\ il_percentage u = 100 * il_usd u / hodl_value_usd u
   /\ current_value_usd u = pre_fee + f)
  /\
  (initial_value_usd s = Ideal.toFixed2 (initial_value_usd u)
   /\ hodl_value_usd s = Ideal.toFixed2 (hodl_value_usd u)
   /\ il_usd s = Ideal.toFixed2 (pre_fee - hodl_value_usd u)
   /\ il_percentage s = Ideal.toFixed2 (100 * il_usd u / hodl_value_usd u)
   /\ current_value_usd s = Ideal.toFixed2 (pre_fee + f)).
Proof.
  intros _ u s pre_fee. subst u s pre_fee.
  unfold_real_programs.
  repeat split; try reflexivity; try (f_equal; unfold Rdiv; ring).
  unfold Rdiv; ring.
Qed.

Lemma C1_step_equations_witness :
  Spec.valid_input (3 / 2) 2000 1 1 1 10 30
  /\ il_usd (IndexTs.calculateImpermanentLoss (3 / 2) 2000 1 1 1 10 30)
     = Spec.currentValueUsd (3 / 2) 2000 1 1 1 - 3001
  /\ il_usd (SrcIndexTs.calculateImpermanentLoss (3 / 2) 2000 1 1 1 10 30)
     = Ideal.toFixed2 (Spec.currentValueUsd (3 / 2) 2000 1 1 1 - 3001).
Proof.
  assert (Hv : Spec.valid_input (3 / 2) 2000 1 1 1 10 30)
    by (constructor; lra).
  destruct (C1_step_equations (3 / 2) 2000 1 1 1 10 30 Hv)
    as [(_ & Hh & _ & Hil & _) (_ & _ & Hils & _)].
  split; [exact Hv |]. split.
  - rewrite Hil, Hh. f_equal. lra.
  - rewrite Hils, Hh. do 2 f_equal. lra.
Defined.

(** Value of the rebalanced position: [sqrt (k * r) * (p0 + p1)]. *)
Lemma currentValueUsd_closed (r p0 p1 a0 a1 : R) :
  0 < a0 * a1 -> 0 < r ->
  Spec.currentValueUsd r p0 p1 a0 a1 = sqrt (a0 * a1 * r) * (p0 + p1).
Proof.
  intros Hk Hr. unfold_real_programs.
  rewrite (Rmult_assoc (sqrt (a0 * a1 / r)) p0 r).
  rewrite (Rmult_comm p0 r), <- Rmult_assoc.
  rewrite sqrt_div_times by assumption. ring.
Qed.

(** The sign of the reported loss, for any amounts and prices. *)
Lemma hodl_minus_current (r p0 p1 a0 a1 : R) :
  0 <= a0 -> 0 <= a1 -> 0 < a0 * a1 -> 0 < r ->
  Spec.hodlValueUsd r p0 p1 a0 a1 - Spec.currentValueUsd r p0 p1 a0 a1
  = (sqrt (a0 * r) - sqrt a1) * (sqrt (a0 * r) * p0 - sqrt a1 * p1).
Proof.
  intros H0 H1 Hk Hr.
  rewrite currentValueUsd_closed by assumption.
  unfold_real_programs.
  assert (Ha0r : 0 <= a0 * r) by nra.
  replace (a0 * a1 * r) with ((a0 * r) * a1) by ring.
  rewrite sqrt_mult by assumption.
  pose proof (sqrt_sqrt (a0 * r) Ha0r) as Hu.
  pose proof (sqrt_sqrt a1 H1) as Hv.
  set (u := sqrt (a0 * r)) in *. set (v := sqrt a1) in *.
  replace (a0 * p0 * r) with (u * u * p0) by (rewrite Hu; ring).
  replace (a1 * p1) with (v * v * p1) by (rewrite Hv; ring).
  ring.
Qed.

(** Where the unchanged-price case does come out as zero: equal amounts. *)
Lemma unchanged_price_equal_amounts (p0 p1 a f d : R) :
  0 <= a ->
  il_usd (IndexTs.calculateImpermanentLoss 1 p0 p1 a a f d) = 0
  /\ il_percentage (IndexTs.calculateImpermanentLoss 1 p0 p1 a a f d) = 0.
Proof.
  intros Ha. unfold_real_programs.
  replace (a * a / 1) with (a * a) by (unfold Rdiv; rewrite Rinv_1; ring).
  replace (a * a * 1) with (a * a) by ring.
  rewrite sqrt_square by assumption.
  split; unfold Rdiv; ring.
Qed.

(** C4 (as amended).  In exact arithmetic, for every input satisfying the
    preconditions in which the two amounts are equal and the two initial
    prices are equal and positive, the [il_percentage] returned by either
    program is at most 0. *)
Theorem C4_il_nonpositive_equal_prices (r p0 p1 a0 a1 f d : R) :
  Spec.valid_input r p0 p1 a0 a1 f d ->
  a0 = a1 -> p0 = p1 -> 0 < p0 ->
  il_percentage (IndexTs.calculateImpermanentLoss r p0 p1 a0 a1 f d) <= 0
  /\ il_percentage (SrcIndexTs.calculateImpermanentLoss r p0 p1 a0 a1 f d)
     <= 0.
Proof.
  intros [Hr H0 H1 Hk Hd Hf Hp0 Hp1] Ha Heq Hp. subst a1 p1.
  pose proof (hodl_minus_current r p0 p0 a0 a0 H0 H1 Hk Hr) as Hdiff.
  destruct (amounts_pos a0 a0 H0 H1 Hk) as [Ha0 _].
  assert (Hhodl : 0 < Spec.hodlValueUsd r p0 p0 a0 a0).
  { unfold_real_programs.
    assert (0 < a0 * p0 * r) by (repeat apply Rmult_lt_0_compat; assumption).
    assert (0 < a0 * p0) by (apply Rmult_lt_0_compat; assumption).
    lra. }
  assert (Hil : (Spec.currentValueUsd r p0 p0 a0 a0
                 - Spec.hodlValueUsd r p0 p0 a0 a0)
                / Spec.hodlValueUsd r p0 p0 a0 a0 * 100 <= 0).
  { assert (Hle : Spec.currentValueUsd r p0 p0 a0 a0
                  - Spec.hodlValueUsd r p0 p0 a0 a0 <= 0).
    { set (u := sqrt (a0 * r)) in *. set (v := sqrt a0) in *.
      assert (0 <= (u - v) * (u * p0 - v * p0)).
      { replace ((u - v) * (u * p0 - v * p0)) with (p0 * ((u - v) * (u - v)))
          by ring.
        apply Rmult_le_pos; [lra | apply (Rle_0_sqr (u - v))]. }
      lra. }
    apply (div_scale_nonpos _ _ Hle Hhodl). }
  split.
  - exact Hil.
  - apply toFixed2_nonpos. exact Hil.
Qed.

Lemma C4_il_nonpositive_equal_prices_witness :
  Spec.valid_input 4 1 1 1 1 0 30 /\ 1 = 1 /\ 1 = 1 /\ 0 < 1
  /\ il_percentage (IndexTs.calculateImpermanentLoss 4 1 1 1 1 0 30) <= 0.
Proof.
  assert (Hv : Spec.valid_input 4 1 1 1 1 0 30) by (constructor; lra).
  assert (Hp : 0 < 1) by lra.
  split; [exact Hv |]. do 2 (split; [reflexivity |]). split; [exact Hp |].
  exact (proj1 (C4_il_nonpositive_equal_prices 4 1 1 1 1 0 30
                  Hv eq_refl eq_refl Hp)).
Defined.

(** C5 (as amended).  In exact arithmetic, for every input satisfying the
    preconditions in which the two amounts are equal and the two initial
    prices are equal and positive, the step-by-step [il_percentage] is the
    closed form [100 * (2 * sqrt r / (1 + r) - 1)]; [src/src/index.ts]
    returns it rounded to two decimals. *)
Theorem C5_closed_form_equal_amounts_and_prices (r p0 p1 a0 a1 f d : R) :
  Spec.valid_input r p0 p1 a0 a1 f d ->
  a0 = a1 -> p0 = p1 -> 0 < p0 ->
  il_percentage (IndexTs.calculateImpermanentLoss r p0 p1 a0 a1 f d)
  = Spec.closedFormIL r
  /\ il_percentage (SrcIndexTs.calculateImpermanentLoss r p0 p1 a0 a1 f d)
     = Ideal.toFixed2 (Spec.closedFormIL r).
Proof.
  intros [Hr H0 H1 Hk Hd Hf Hp0 Hp1] Ha Heq Hp. subst a1 p1.
  assert (Ha : 0 < a0) by nra.
  pose proof (currentValueUsd_closed r p0 p0 a0 a0 Hk Hr) as Hcur.
  assert (Hs : sqrt (a0 * a0 * r) = a0 * sqrt r).
  { rewrite sqrt_mult by nra. rewrite sqrt_square by lra. reflexivity. }
  assert (Hil : (Spec.currentValueUsd r p0 p0 a0 a0
                 - Spec.hodlValueUsd r p0 p0 a0 a0)
                / Spec.hodlValueUsd r p0 p0 a0 a0 * 100
                = Spec.closedFormIL r).
  { rewrite Hcur, Hs. unfold_real_programs.
    assert (Hh : 0 < a0 * p0 * r + a0 * p0).
    { assert (0 < a0 * p0) by (apply Rmult_lt_0_compat; assumption).
      assert (0 < a0 * p0 * r) by (apply Rmult_lt_0_compat; assumption).
      lra. }
    field. split; lra. }
  split.
  - exact Hil.
  - unfold SrcIndexTs.calculateImpermanentLoss.
    cbn [il_percentage js_toFixed2 Ideal.R_JSNumber].
    f_equal. exact Hil.
Qed.

Lemma C5_closed_form_equal_amounts_and_prices_witness :
  Spec.valid_input 4 3 3 2 2 0 30 /\ 2 = 2 /\ 3 = 3 /\ 0 < 3
  /\ il_percentage (IndexTs.calculateImpermanentLoss 4 3 3 2 2 0 30)
     = Spec.closedFormIL 4.
Proof.
  assert (Hv : Spec.valid_input 4 3 3 2 2 0 30) by (constructor; lra).
  assert (Hp : 0 < 3) by lra.
  split; [exact Hv |]. do 2 (split; [reflexivity |]). split; [exact Hp |].
  exact (proj1 (C5_closed_form_equal_amounts_and_prices
                  4 3 3 2 2 0 30 Hv eq_refl eq_refl Hp)).
Defined.

(** C8 (as amended).  In exact arithmetic, for every input satisfying the
    preconditions, the fee APR that [src/index.ts] returns is
    [100 * (feesEarned / daysHeld * 365) / initialValueUsd], and doubling
    [feesEarned] doubles it; [src/src/index.ts] returns that value rounded
    to two decimals. *)
Theorem C8_fee_apr_linear (r p0 p1 a0 a1 f d : R) :
  Spec.valid_input r p0 p1 a0 a1 f d ->
  let u := IndexTs.calculateImpermanentLoss r p0 p1 a0 a1 f d in
  let u2 := IndexTs.calculateImpermanentLoss r p0 p1 a0 a1 (2 * f) d in
  let s := SrcIndexTs.calculateImpermanentLoss r p0 p1 a0 a1 f d in
  fee_apr u = Spec.feeApr f d (Spec.initialValueUsd p0 p1 a0 a1)
  /\ fee_apr u2 = 2 * fee_apr u
  /\ initial_value_usd u2 = initial_value_usd u
  /\ fee_apr s = Ideal.toFixed2 (fee_apr u).
Proof.
  intros _ u u2 s. subst u u2 s. unfold_real_programs.
  repeat split; unfold Rdiv; ring.
Qed.

Lemma C8_fee_apr_linear_witness :
  Spec.valid_input (3 / 2) 2000 1 1 1 10 30
  /\ fee_apr (IndexTs.calculateImpermanentLoss (3 / 2) 2000 1 1 1 (2 * 10) 30)
     = 2 * fee_apr (IndexTs.calculateImpermanentLoss (3 / 2) 2000 1 1 1 10 30).
Proof.
  assert (Hv : Spec.valid_input (3 / 2) 2000 1 1 1 10 30)
    by (constructor; lra).
  split; [exact Hv |].
  exact (proj1 (proj2 (C8_fee_apr_linear (3 / 2) 2000 1 1 1 10 30 Hv))).
Defined.

(** C9 (as amended).  In [src/src/index.ts], in exact arithmetic, every
    numeric field is the internally computed value rounded to two decimals:
    a multiple of 0.01 within 0.005 of it.  The rounding happens in the
    returned record only: [netApr] and the recommendation are computed from
    the unrounded [ilPercentage] and [feeApr]. *)
Theorem C9_rounded_at_the_boundary (r p0 p1 a0 a1 f d : R) :
  let s := SrcIndexTs.calculateImpermanentLoss r p0 p1 a0 a1 f d in
  let il := Spec.ilPercentage r p0 p1 a0 a1 in
  let fa := Spec.feeApr f d (Spec.initialValueUsd p0 p1 a0 a1) in
  let na := Spec.netApr fa il d in
  let rounds (x y : R) :=
    x = Ideal.toFixed2 y
    /\ (exists n : Z, x = IZR n / 100) /\ Rabs (x - y) <= / 200 in
  rounds (il_percentage s) il
  /\ rounds (il_usd s) (Spec.ilUsd r p0 p1 a0 a1)
  /\ rounds (initial_value_usd s) (Spec.initialValueUsd p0 p1 a0 a1)
  /\ rounds (current_value_usd s)
       (Spec.reportedCurrentValueUsd r p0 p1 a0 a1 f)
  /\ rounds (hodl_value_usd s) (Spec.hodlValueUsd r p0 p1 a0 a1)
  /\ rounds (fee_apr s) fa
  /\ rounds (net_apr s) na
  /\ recommendation s = Spec.classify il fa na.
Proof.
  intros s il fa na rounds.
  assert (Hrounds : forall x y, x = Ideal.toFixed2 y -> rounds x y).
  { intros x y ->. split; [reflexivity |].
    split; [apply toFixed2_grid | apply toFixed2_error]. }
  assert (Hil : (Spec.currentValueUsd r p0 p1 a0 a1
                 - Spec.hodlValueUsd r p0 p1 a0 a1)
                / Spec.hodlValueUsd r p0 p1 a0 a1 * 100 = il).
  { subst il. unfold Spec.ilPercentage, Spec.ilUsd.
    cbn [js_lit js_mul js_div js_sub Ideal.R_JSNumber]. unfold Rdiv. ring. }
  assert (Hfa : f / d * 365 / Spec.initialValueUsd p0 p1 a0 a1 * 100 = fa).
  { subst fa. unfold Spec.feeApr, Spec.annualFees.
    cbn [js_lit js_mul js_div Ideal.R_JSNumber]. unfold Rdiv. ring. }
  assert (Hna : fa + il / d * 365 = na) by reflexivity.
  subst s. unfold SrcIndexTs.calculateImpermanentLoss.
  cbn [il_percentage il_usd initial_value_usd current_value_usd
       hodl_value_usd fee_apr net_apr recommendation].
  repeat match goal with
         | |- _ /\ _ => split
         end;
    try (apply Hrounds; cbn [js_toFixed2 Ideal.R_JSNumber]; f_equal;
         first [ exact Hil | exact Hfa | reflexivity
               | rewrite <- Hna, <- Hil, <- Hfa; reflexivity ]).
  unfold Spec.classify, Spec.rule_table, Spec.rule1, Spec.rule2, Spec.rule3,
    Spec.rule4.
  cbn [Spec.first_match].
  rewrite <- Hna, <- Hil, <- Hfa. reflexivity.
Qed.

(** C10 (as amended).  In exact arithmetic the record returned by
    [src/index.ts] satisfies
    [il_usd = (current_value_usd - feesEarned) - hodl_value_usd]. *)
Theorem C10_il_usd_consistent (r p0 p1 a0 a1 f d : R) :
  let u := IndexTs.calculateImpermanentLoss r p0 p1 a0 a1 f d in
  il_usd u = (current_value_usd u - f) - hodl_value_usd u.
Proof.
  intros u. subst u. unfold_real_programs. ring.
Qed.

End OverTheReals.

(** ** Properties that hold in every interpretation *)

Section AnyArithmetic.
Context {num : Type} {N : JSNumber num}.

Lemma z_number_accepts (x : num) :
  js_isFinite x = true -> SrcIndexTs.z_number (JSNum x) = Some x.
Proof. intros Hx. unfold SrcIndexTs.z_number. rewrite Hx. reflexivity. Qed.

Lemma z_number_rejects_non_numbers (v : jsvalue num) :
  (forall x, v <> JSNum x) -> SrcIndexTs.z_number v = None.
Proof. destruct v; intros Hv; try reflexivity. destruct (Hv x eq_refl). Qed.

(** Apart from the percentages, whose factor 100 the programs apply last,
    the values computed by [src/index.ts] are the specification's formulas
    in every interpretation, binary64 included. *)
Lemma step_equations_any_arithmetic (r p0 p1 a0 a1 f d : num) :
  let u := IndexTs.calculateImpermanentLoss r p0 p1 a0 a1 f d in
  initial_value_usd u = Spec.initialValueUsd p0 p1 a0 a1
  /\ hodl_value_usd u = Spec.hodlValueUsd r p0 p1 a0 a1
  /\ il_usd u = Spec.ilUsd r p0 p1 a0 a1
  /\ current_value_usd u = Spec.reportedCurrentValueUsd r p0 p1 a0 a1 f
  /\ net_apr u = Spec.netApr (fee_apr u) (il_percentage u) d.
Proof. cbv zeta. repeat split. Qed.

(** C2 (as amended).  Neither program validates ranges.  Whatever the
    sign of its seven finite numbers, zero included, a request is accepted
    by [ILInputSchema], and the internal endpoint answers 200 with the
    record computed by [calculateImpermanentLoss]: no input error is
    signalled.  The handler of [src/index.ts] calls the calculator without
    any check. *)
Theorem C2_no_range_validation (i : ILInput num) (key : string) :
  key <> ""%string ->
  all_numbers i = true ->
  SrcIndexTs.ILInputSchema (body_of i) = Some i
  /\ SrcIndexTs.internal_api (Some key) (Some key) (body_of i)
     = SrcIndexTs.Json200
         (SrcIndexTs.calculateImpermanentLoss
            (current_price_ratio i) (initial_price_0 i) (initial_price_1 i)
            (amount_0 i) (amount_1 i) (fees_earned i) (days_held i))
  /\ IndexTs.handler i
     = IndexTs.calculateImpermanentLoss
         (current_price_ratio i) (initial_price_0 i) (initial_price_1 i)
         (amount_0 i) (amount_1 i) (fees_earned i) (days_held i).
Proof.
  intros Hkey Hnum.
  assert (Hparse : SrcIndexTs.ILInputSchema (body_of i) = Some i).
  { destruct i as [p0 p1 r a0 a1 f d].
    unfold all_numbers in Hnum. cbn in Hnum.
    repeat (apply andb_prop in Hnum; destruct Hnum as [?H Hnum]).
    unfold SrcIndexTs.ILInputSchema, body_of. cbn.
    repeat match goal with
           | H : js_isFinite _ = true |- _ => rewrite H; clear H
           end.
    reflexivity. }
  split; [exact Hparse |]. split; [| reflexivity].
  unfold SrcIndexTs.internal_api.
  destruct key as [| c key']; [congruence |].
  rewrite String.eqb_refl. cbn [negb].
  rewrite Hparse. reflexivity.
Qed.

(** C6 (as amended).  In [src/src/index.ts] the recommendation is the label
    of the first matching rule of the five-rule table, evaluated top to
    bottom over the unrounded [ilPercentage], [feeApr] and
    [netApr = feeApr + ilPercentage / daysHeld * 365] (the values that
    [src/index.ts] returns), so an input matching rule 1 gets rule 1's label
    whatever else it matches.  [src/index.ts] evaluates rules 1 and 2 only,
    in the same order, before the default. *)
Theorem C6_rule_table (r p0 p1 a0 a1 f d : num) :
  let u := IndexTs.calculateImpermanentLoss r p0 p1 a0 a1 f d in
  let s := SrcIndexTs.calculateImpermanentLoss r p0 p1 a0 a1 f d in
  let il := il_percentage u in
  let fa := fee_apr u in
  let na := net_apr u in
  na = Spec.netApr fa il d
  /\ recommendation s = Spec.classify il fa na
  /\ (fst (Spec.rule1 il fa) = false
      \/ recommendation s
         = "Consider exiting - IL exceeds fee earnings"%string)
  /\ recommendation u
     = Spec.first_match [Spec.rule1 il fa; Spec.rule2 na] "Monitor position".
Proof.
  cbv zeta.
  unfold IndexTs.calculateImpermanentLoss,
    SrcIndexTs.calculateImpermanentLoss, Spec.classify, Spec.rule_table,
    Spec.rule1, Spec.rule2, Spec.rule3, Spec.rule4, Spec.netApr.
  cbn [il_percentage fee_apr net_apr recommendation Spec.first_match fst].
  repeat split.
  match goal with
  | |- context [if ?c then _ else _] => destruct c
  end; [right | left]; reflexivity.
Qed.

(** C7 (as amended).  The two programs compute the same quantities but do
    not return equal records: each numeric field of [src/src/index.ts] is
    the field of [src/index.ts] passed through [toFixed(2)], and the two
    recommendations are equal unless [src/index.ts] falls back to
    "Monitor position" where [src/src/index.ts] applies rule 3 or rule 4. *)
Theorem C7_variants_related (r p0 p1 a0 a1 f d : num) :
  let u := IndexTs.calculateImpermanentLoss r p0 p1 a0 a1 f d in
  let s := SrcIndexTs.calculateImpermanentLoss r p0 p1 a0 a1 f d in
  il_percentage s = js_toFixed2 (il_percentage u)
  /\ il_usd s = js_toFixed2 (il_usd u)
  /\ initial_value_usd s = js_toFixed2 (initial_value_usd u)
  /\ current_value_usd s = js_toFixed2 (current_value_usd u)
  /\ hodl_value_usd s = js_toFixed2 (hodl_value_usd u)
  /\ fee_apr s = js_toFixed2 (fee_apr u)
  /\ net_apr s = js_toFixed2 (net_apr u)
  /\ (recommendation s = recommendation u
      \/ (recommendation u = "Monitor position"%string
          /\ (recommendation s
               = "Profitable position - fees covering IL"%string
              \/ recommendation s
                 = "High IL detected - evaluate exit strategy"%string))).
Proof.
  cbv zeta.
  unfold IndexTs.calculateImpermanentLoss,
    SrcIndexTs.calculateImpermanentLoss.
  cbn [il_percentage il_usd initial_value_usd current_value_usd
       hodl_value_usd fee_apr net_apr recommendation].
  repeat (split; [reflexivity |]).
  match goal with
  | |- context [if ?c1 && ?c2 then _ else _] => destruct (c1 && c2)
  end; [left; reflexivity |].
  match goal with
  | |- context [if js_gt ?x (js_lit 10) then _ else _] =>
      destruct (js_gt x (js_lit 10))
  end; [left; reflexivity |].
  match goal with
  | |- context [if js_gt ?x (js_lit 0) then _ else _] =>
      destruct (js_gt x (js_lit 0))
  end; [right; split; [reflexivity | left; reflexivity] |].
  match goal with
  | |- context [if js_lt ?x ?y then _ else _] => destruct (js_lt x y)
  end; [right; split; [reflexivity | right; reflexivity] | left; reflexivity].
Qed.

End AnyArithmetic.

(** ** Concrete runs in binary64 *)

Section Binary64Runs.
Import Samples.
Local Open Scope float_scope.

(** The round-trip example of the specification (section 8), run through
    both programs. *)
Example round_trip_unrounded :
  IndexTs.handler round_trip
  = {| il_percentage := -18.336738165459185;
       il_usd := -550.28551234543011;
       initial_value_usd := 2001;
       current_value_usd := 2460.7144876545699;
       hodl_value_usd := 3001;
       fee_apr := 6.0802931867399632;
       net_apr := -217.01668782634675;
       recommendation := "Consider exiting - IL exceeds fee earnings" |}.
Proof. vm_compute. reflexivity. Qed.

Example round_trip_rounded :
  SrcIndexTs.handler round_trip
  = {| il_percentage := -18.34;
       il_usd := -550.29;
       initial_value_usd := 2001;
       current_value_usd := 2460.71;
       hodl_value_usd := 3001;
       fee_apr := 6.08;
       net_apr := -217.02;
       recommendation := "Consider exiting - IL exceeds fee earnings" |}.
Proof. vm_compute. reflexivity. Qed.

(** Rules 1 and 4 both match the round-trip input; rule 1 wins. *)
Example round_trip_rule_order :
  fst (Spec.rule1 (-18.336738165459185) 6.0802931867399632) = true
  /\ fst (Spec.rule4 (-18.336738165459185)) = true
  /\ recommendation (SrcIndexTs.handler round_trip)
     = snd (Spec.rule1 (-18.336738165459185) 6.0802931867399632).
Proof. vm_compute. repeat split. Qed.

(** [toFixed] on ties and near-ties of the stored double. *)
Example toFixed2_samples :
  map Binary64.toFixed2
      [1.005; -1.005; 0.125; -0.125; 8.345; 0.004; -0.004; -0;
       1e21; infinity; 70368744177664.5]
  = [1; -1; 0.13; -0.13; 8.35; 0; -0; 0; 1e21; infinity; 70368744177664.5].
Proof. vm_compute. reflexivity. Qed.

(** C1, counterexample.  On the round-trip input [src/src/index.ts] reports
    [il_usd = -550.29], which is not the pre-fee current value minus the
    hodl value (-550.2855...); with prices of 1/1024 it reports an initial
    value of 0, in binary64 and over the reals alike.  In binary64 the
    order of the operations shows as well: [src/index.ts] computes
    [(-3 / 9) * 100], which is not the double [100 * -3 / 9]. *)
Lemma C1_counterexample_rounded_fields :
  (il_usd (SrcIndexTs.handler round_trip) = -550.29
   /\ Spec.currentValueUsd 1.5 2000 1 1 1
      - hodl_value_usd (SrcIndexTs.handler round_trip)
      = -550.28551234543011
   /\ initial_value_usd (SrcIndexTs.handler sub_cent) = 0
   /\ 1 * 0x1p-10 + 1 * 0x1p-10 = 0x1p-9
   /\ il_usd (IndexTs.handler one_third_loss) = -3
   /\ hodl_value_usd (IndexTs.handler one_third_loss) = 9
   /\ il_percentage (IndexTs.handler one_third_loss) = -33.33333333333333
   /\ 100 * -3 / 9 = -33.333333333333336)
  /\ (Spec.valid_input 1 (/ 1024) (/ 1024) 1 1 0 1
      /\ initial_value_usd
           (SrcIndexTs.calculateImpermanentLoss 1 (/ 1024) (/ 1024) 1 1 0 1)
         <> 1 * / 1024 + 1 * / 1024)%R.
Proof.
  split; [vm_compute; repeat split |].
  split; [constructor; lra |].
  unfold_real_programs.
  rewrite (toFixed2_nonneg_val _ 0%Z); lra.
Qed.

(** A field of Infinity (sent as [1e999]) is refused by the schema. *)
Example infinity_is_refused :
  SrcIndexTs.ILInputSchema (body_of (mkILInput 2000 1 1.5 1 1 10 infinity))
  = None
  /\ SrcIndexTs.internal_api (Some "k"%string) (Some "k"%string)
       (body_of (mkILInput 2000 1 1.5 1 1 10 infinity))
     = SrcIndexTs.Json500.
Proof. vm_compute. split; reflexivity. Qed.

(** C2, counterexample.  With [days_held = 0] the request is answered, not
    refused, and the answer carries Infinity and NaN; a negative price
    ratio and an all-zero-price position give NaN as well.  The program of
    [src/index.ts] behaves alike. *)
Lemma C2_counterexample_no_error_but_nan :
  (exists res,
      SrcIndexTs.internal_api (Some "k"%string) (Some "k"%string)
        (body_of zero_days) = SrcIndexTs.Json200 res
      /\ fee_apr res = infinity
      /\ PrimFloat.is_nan (net_apr res) = true)
  /\ PrimFloat.is_nan (il_percentage (SrcIndexTs.handler negative_ratio)) = true
  /\ PrimFloat.is_nan (il_percentage (SrcIndexTs.handler zero_value)) = true
  /\ fee_apr (IndexTs.handler zero_days) = infinity
  /\ PrimFloat.is_nan (il_percentage (IndexTs.handler negative_ratio)) = true
  /\ PrimFloat.is_nan (il_percentage (IndexTs.handler zero_value)) = true.
Proof.
  split; [| vm_compute; repeat split].
  eexists. split; [vm_compute; reflexivity |]. vm_compute. split; reflexivity.
Qed.

Lemma C2_no_range_validation_witness :
  ("k" <> "")%string
  /\ all_numbers zero_days = true
  /\ SrcIndexTs.internal_api (Some "k"%string) (Some "k"%string)
       (body_of zero_days)
     = SrcIndexTs.Json200
         (SrcIndexTs.calculateImpermanentLoss 1.5 2000 1 1 1 10 0).
Proof.
  assert (Hk : ("k" <> "")%string) by discriminate.
  assert (Hn : all_numbers zero_days = true) by reflexivity.
  split; [exact Hk |]. split; [exact Hn |].
  exact (proj1 (proj2 (C2_no_range_validation zero_days "k"%string Hk Hn))).
Defined.

(** C3.  A deposit of 1 token at 4 USD and 4 tokens at 1 USD (equal value
    on both sides), price ratio 1: both programs report a gain of 2 USD,
    25%, where the claim requires 0.  The rebalanced holdings
    [sqrt (k / priceRatio)] and [sqrt (k * priceRatio)] are 2 and 2: the
    position has been moved to equal amounts although no price moved. *)
Theorem C3_unchanged_price_nonzero_il :
  (Spec.newAmount0 1 1 4 = 2 /\ Spec.newAmount1 1 1 4 = 2
   /\ il_usd (IndexTs.handler unchanged_price) = 2
   /\ il_percentage (IndexTs.handler unchanged_price) = 25
   /\ il_usd (SrcIndexTs.handler unchanged_price) = 2
   /\ il_percentage (SrcIndexTs.handler unchanged_price) = 25)
  /\ (Spec.valid_input 1 4 1 1 4 0 30
      /\ il_usd (IndexTs.calculateImpermanentLoss 1 4 1 1 4 0 30) = 2
      /\ il_percentage (IndexTs.calculateImpermanentLoss 1 4 1 1 4 0 30) = 25)%R.
Proof.
  split; [vm_compute; repeat split |].
  split; [constructor; lra |].
  unfold_real_programs.
  replace (1 * 4 / 1)%R with (2 * 2)%R by lra.
  replace (1 * 4 * 1)%R with (2 * 2)%R by lra.
  rewrite sqrt_square by lra.
  split; lra.
Qed.

(** C4, counterexample.  Equal amounts, prices 1 and 3, price ratio 4: the
    position is worth 8 against a hodl value of 7, so the reported loss is
    +14.29%.  In binary64 a loss that is zero up to rounding can also come
    out positive with equal prices. *)
Lemma C4_counterexample_positive_il :
  (il_percentage (IndexTs.handler unequal_prices) = 14.285714285714285
   /\ PrimFloat.leb (il_percentage (IndexTs.handler unequal_prices)) 0 = false
   /\ il_percentage (SrcIndexTs.handler unequal_prices) = 14.29
   /\ PrimFloat.leb (il_percentage (SrcIndexTs.handler unequal_prices)) 0
      = false
   /\ il_percentage (IndexTs.handler near_zero_loss) = 1.6447748512965283e-14
   /\ PrimFloat.leb (il_percentage (IndexTs.handler near_zero_loss)) 0
      = false)
  /\ (Spec.valid_input 4 1 3 1 1 0 30
      /\ ~ il_percentage (IndexTs.calculateImpermanentLoss 4 1 3 1 1 0 30)
          <= 0)%R.
Proof.
  split; [vm_compute; repeat split |].
  split; [constructor; lra |].
  unfold_real_programs.
  replace (1 * 1 / 4)%R with (/ 2 * / 2)%R by lra.
  replace (1 * 1 * 4)%R with (2 * 2)%R by lra.
  rewrite !sqrt_square by lra.
  lra.
Qed.

(** C5, counterexample.  On the round-trip input of the specification the
    step-by-step result is -18.34% and the closed form gives -2.02%.  Over
    the reals, with price ratio 4: equal amounts and prices 1 and 3 give
    +100/7 %, amounts 1 and 4 at equal prices give 0%, and the closed form
    gives -20%. *)
Lemma C5_counterexample_closed_form_differs :
  (il_percentage (IndexTs.handler round_trip) = -18.336738165459185
   /\ Spec.closedFormIL 1.5 = -2.0204102886728803
   /\ il_percentage (SrcIndexTs.handler round_trip) = -18.34
   /\ Binary64.toFixed2 (Spec.closedFormIL 1.5) = -2.02)
  /\ (Spec.valid_input 4 1 3 1 1 0 30
      /\ Spec.valid_input 4 1 1 1 4 0 30
      /\ Spec.closedFormIL 4 = -20
      /\ il_percentage (IndexTs.calculateImpermanentLoss 4 1 3 1 1 0 30)
         = 100 / 7
      /\ il_percentage (IndexTs.calculateImpermanentLoss 4 1 1 1 4 0 30)
         = 0)%R.
Proof.
  split; [vm_compute; repeat split |].
  split; [constructor; lra |].
  split; [constructor; lra |].
  unfold_real_programs.
  replace (1 * 1 / 4)%R with (/ 2 * / 2)%R by lra.
  replace (1 * 1 * 4)%R with (2 * 2)%R by lra.
  replace (1 * 4 / 4)%R with (1 * 1)%R by lra.
  replace (1 * 4 * 4)%R with (4 * 4)%R by lra.
  replace 4%R with (2 * 2)%R at 1 by lra.
  rewrite !sqrt_square by lra.
  repeat split; lra.
Qed.

(** C6, counterexample.  Fees of 5% a year and no loss: rule 3 of the table
    applies, and [src/index.ts] answers with the default label. *)
Lemma C6_counterexample_rule3_missing :
  il_percentage (IndexTs.handler five_percent_fees) = 0
  /\ fee_apr (IndexTs.handler five_percent_fees) = 5
  /\ net_apr (IndexTs.handler five_percent_fees) = 5
  /\ Spec.classify 0 5 5 = "Profitable position - fees covering IL"%string
  /\ recommendation (IndexTs.handler five_percent_fees)
     = "Monitor position"%string
  /\ recommendation (IndexTs.handler five_percent_fees) <> Spec.classify 0 5 5.
Proof. vm_compute. repeat split. discriminate. Qed.

(** C7, counterexample.  On the same input the two programs disagree on the
    recommendation; on the round-trip input they disagree on [il_usd]. *)
Lemma C7_counterexample_variants_differ :
  IndexTs.handler five_percent_fees <> SrcIndexTs.handler five_percent_fees
  /\ recommendation (IndexTs.handler five_percent_fees)
     = "Monitor position"%string
  /\ recommendation (SrcIndexTs.handler five_percent_fees)
     = "Profitable position - fees covering IL"%string
  /\ il_usd (IndexTs.handler round_trip) = -550.28551234543011
  /\ il_usd (SrcIndexTs.handler round_trip) = -550.29.
Proof.
  repeat split; try (vm_compute; reflexivity).
  intros Heq. apply (f_equal recommendation) in Heq.
  vm_compute in Heq. discriminate.
Qed.

(** C8, counterexample.  A position worth 100 USD held for 365 days: fees
    of 1/256 USD give a fee APR of 0.0039%, reported as 0 by
    [src/src/index.ts]; fees of 1/128 USD give 0.0078%, reported as 0.01.
    In binary64 doubling can fail in [src/index.ts] too, at the bottom of
    the range: half the smallest positive double rounds to 0. *)
Lemma C8_counterexample_rounded_fee_apr :
  (fee_apr (SrcIndexTs.handler (small_fees 0x1p-8)) = 0
   /\ fee_apr (SrcIndexTs.handler (small_fees (2 * 0x1p-8))) = 0.01
   /\ fee_apr (IndexTs.handler (tiny_fees 0x1p-1074)) = 0
   /\ PrimFloat.ltb 0 (fee_apr (IndexTs.handler (tiny_fees (2 * 0x1p-1074))))
      = true)
  /\ (Spec.valid_input 1 50 50 1 1 (/ 256) 365
      /\ fee_apr
           (SrcIndexTs.calculateImpermanentLoss 1 50 50 1 1 (2 * / 256) 365)
         <> 2 * fee_apr
                 (SrcIndexTs.calculateImpermanentLoss 1 50 50 1 1 (/ 256) 365))%R.
Proof.
  split; [vm_compute; repeat split |].
  split; [constructor; lra |].
  unfold_real_programs.
  rewrite (toFixed2_nonneg_val _ 1%Z) by lra.
  rewrite (toFixed2_nonneg_val _ 0%Z) by lra.
  lra.
Qed.

(** C9, counterexample.  [src/index.ts] returns its values as computed: on
    the round-trip input [il_usd] has more than two decimals, and with
    prices of 1/1024 the initial value 1/512 is returned, not 0. *)
Lemma C9_counterexample_unrounded_variant :
  (il_usd (IndexTs.handler round_trip) = -550.28551234543011
   /\ Binary64.toFixed2 (-550.28551234543011) = -550.29
   /\ initial_value_usd (IndexTs.handler sub_cent) = 0x1p-9
   /\ Binary64.toFixed2 0x1p-9 = 0)
  /\ (initial_value_usd
        (IndexTs.calculateImpermanentLoss 1 (/ 1024) (/ 1024) 1 1 0 1)
      = / 512
      /\ Ideal.toFixed2 (/ 512) = 0)%R.
Proof.
  split; [vm_compute; repeat split |].
  unfold_real_programs.
  split; [lra |].
  rewrite (toFixed2_nonneg_val _ 0%Z); lra.
Qed.

(** C10, counterexample.  In binary64, a position worth 0.1 USD with 0.2 USD
    of fees: [0.1 + 0.2 - 0.2] is not [0.1], so the right-hand side is
    2.8e-17 where [il_usd] is 0. *)
Lemma C10_counterexample_binary64_rounding :
  il_usd (IndexTs.handler ten_cents) = 0
  /\ current_value_usd (IndexTs.handler ten_cents) - 0.2
     - hodl_value_usd (IndexTs.handler ten_cents) = 0x1p-55
  /\ PrimFloat.eqb
       (il_usd (IndexTs.handler ten_cents))
       (current_value_usd (IndexTs.handler ten_cents) - 0.2
        - hodl_value_usd (IndexTs.handler ten_cents)) = false.
Proof. vm_compute. repeat split. Qed.

End Binary64Runs.

(** * Further properties of the calculator *)

(** The recommendation of each program, as a function of the values that
    [src/index.ts] returns; holds in every interpretation. *)
Lemma recommendation_by_table {num : Type} {N : JSNumber num}
    (r p0 p1 a0 a1 f d : num) :
  let u := IndexTs.calculateImpermanentLoss r p0 p1 a0 a1 f d in
  let s := SrcIndexTs.calculateImpermanentLoss r p0 p1 a0 a1 f d in
  recommendation s
  = Spec.classify (il_percentage u) (fee_apr u) (net_apr u)
  /\ recommendation u
     = Spec.first_match
         [Spec.rule1 (il_percentage u) (fee_apr u); Spec.rule2 (net_apr u)]
         "Monitor position".
Proof. cbv zeta. split; reflexivity. Qed.

Section Labels.
Context {num : Type} {N : JSNumber num}.
Local Open Scope js_scope.

(** X7.  What each label of [src/src/index.ts] means, in every
    interpretation of the number operations (binary64 with its NaN
    included).  With the four tests of the program evaluated on the
    unrounded [ilPercentage], [feeApr] and [netApr] (the values that
    [src/index.ts] returns), each label is returned exactly when its test
    is the first to succeed, and "Monitor position" exactly when all four
    fail. *)
Theorem label_meaning (r p0 p1 a0 a1 f d : num) :
  let u := IndexTs.calculateImpermanentLoss r p0 p1 a0 a1 f d in
  let s := SrcIndexTs.calculateImpermanentLoss r p0 p1 a0 a1 f d in
  let il := il_percentage u in
  let fa := fee_apr u in
  let na := net_apr u in
  let t1 := (il <? #(-5)) && (fa <? js_abs il) in
  let t2 := na >? #10 in
  let t3 := na >? #0 in
  let t4 := il <? #(-10) in
  (recommendation s = "Consider exiting - IL exceeds fee earnings"%string
   <-> t1 = true)
  /\ (recommendation s = "Strong position - fees outpace IL"%string
      <-> t1 = false /\ t2 = true)
  /\ (recommendation s = "Profitable position - fees covering IL"%string
      <-> t1 = false /\ t2 = false /\ t3 = true)
  /\ (recommendation s = "High IL detected - evaluate exit strategy"%string
      <-> t1 = false /\ t2 = false /\ t3 = false /\ t4 = true)
  /\ (recommendation s = "Monitor position"%string
      <-> t1 = false /\ t2 = false /\ t3 = false /\ t4 = false).
Proof.
  intros u s il fa na t1 t2 t3 t4.
  destruct (recommendation_by_table r p0 p1 a0 a1 f d) as [Hs _].
  cbv zeta in Hs. fold u in Hs. fold s in Hs. fold il fa na in Hs.
  rewrite Hs.
  unfold Spec.classify, Spec.rule_table, Spec.rule1, Spec.rule2, Spec.rule3,
    Spec.rule4.
  cbn [Spec.first_match]. fold t1 t2 t3 t4.
  clearbody t1 t2 t3 t4. clear Hs.
  destruct t1, t2, t3, t4; cbn;
    repeat split; intros;
    repeat match goal with
           | H : _ /\ _ |- _ => destruct H
           end;
    try reflexivity; discriminate.
Qed.

(** X8.  [src/index.ts] knows three labels only, in every interpretation
    of the number operations: rule 1's when its test succeeds, rule 2's when
    rule 1's test fails and [netApr > 10] succeeds, "Monitor position" when
    both tests fail; the labels of rules 3 and 4 are never returned. *)
Theorem label_meaning_three_rules (r p0 p1 a0 a1 f d : num) :
  let u := IndexTs.calculateImpermanentLoss r p0 p1 a0 a1 f d in
  let il := il_percentage u in
  let fa := fee_apr u in
  let na := net_apr u in
  let t1 := (il <? #(-5)) && (fa <? js_abs il) in
  let t2 := na >? #10 in
  (recommendation u = "Consider exiting - IL exceeds fee earnings"%string
   <-> t1 = true)
  /\ (recommendation u = "Strong position - fees outpace IL"%string
      <-> t1 = false /\ t2 = true)
  /\ (recommendation u = "Monitor position"%string
      <-> t1 = false /\ t2 = false)
  /\ recommendation u <> "Profitable position - fees covering IL"%string
  /\ recommendation u <> "High IL detected - evaluate exit strategy"%string.
Proof.
  intros u il fa na t1 t2.
  destruct (recommendation_by_table r p0 p1 a0 a1 f d) as [_ Hu].
  cbv zeta in Hu. fold u in Hu. fold il fa na in Hu.
  rewrite Hu.
  unfold Spec.rule1, Spec.rule2.
  cbn [Spec.first_match]. fold t1 t2.
  clearbody t1 t2. clear Hu.
  destruct t1, t2; cbn;
    repeat split; intros;
    repeat match goal with
           | H : _ /\ _ |- _ => destruct H
           end;
    try reflexivity; discriminate.
Qed.

End Labels.

Section CalculatorOverTheReals.
Local Open Scope R_scope.

Lemma Int_part_monotone (x y : R) : x <= y -> (Int_part x <= Int_part y)%Z.
Proof.
  intros Hxy.
  pose proof (Int_part_bounds x) as [Hx _].
  pose proof (Int_part_bounds y) as [_ Hy].
  assert (Hlt : IZR (Int_part x) < IZR (Int_part y + 1))
    by (rewrite plus_IZR; lra).
  apply lt_IZR in Hlt. lia.
Qed.

Lemma toFixed2_nonneg (x : R) : 0 <= x -> 0 <= Ideal.toFixed2 x.
Proof.
  intros Hx. unfold Ideal.toFixed2.
  destruct (Rlt_dec x 0) as [Hneg | _]; [lra |].
  assert (Hz : (0 <= Int_part (100 * x + / 2))%Z).
  { rewrite <- (Int_part_unique 0 0%Z) by lra.
    apply Int_part_monotone. lra. }
  apply IZR_le in Hz. lra.
Qed.

Lemma toFixed2_monotone (x y : R) :
  x <= y -> Ideal.toFixed2 x <= Ideal.toFixed2 y.
Proof.
  intros Hxy.
  destruct (Rlt_dec y 0) as [Hy | Hy].
  - unfold Ideal.toFixed2.
    destruct (Rlt_dec x 0) as [_ | Hx]; [| lra].
    destruct (Rlt_dec y 0) as [_ | Hy']; [| lra].
    assert (Hz : (Int_part (100 * - y + / 2)
                  <= Int_part (100 * - x + / 2))%Z)
      by (apply Int_part_monotone; lra).
    apply IZR_le in Hz. lra.
  - destruct (Rlt_dec x 0) as [Hx | Hx].
    + apply Rle_trans with 0.
      * apply toFixed2_nonpos. lra.
      * apply toFixed2_nonneg. lra.
    + unfold Ideal.toFixed2.
      destruct (Rlt_dec x 0) as [Hx' | _]; [lra |].
      destruct (Rlt_dec y 0) as [Hy' | _]; [lra |].
      assert (Hz : (Int_part (100 * x + / 2)
                    <= Int_part (100 * y + / 2))%Z)
        by (apply Int_part_monotone; lra).
      apply IZR_le in Hz. lra.
Qed.

Lemma sqrt_scale (c x : R) : 0 <= c -> sqrt (c * c * x) = c * sqrt x.
Proof.
  intros Hc.
  rewrite sqrt_mult_alt by nra.
  rewrite sqrt_square by assumption. reflexivity.
Qed.

(** X1.  The holdings that [src/index.ts] values keep the constant
    product.  Read off the program as the current value per unit of each
    price ([n0] from prices 1 and 0, divided by the price ratio; [n1] from
    prices 0 and 1), they satisfy [n0 * n1 = amount0 * amount1], and the
    current value returned for any prices and fees is
    [n0 * initialPrice0 * priceRatio + n1 * initialPrice1 + feesEarned].
    Needs a price ratio above zero and a product of amounts that is not
    negative. *)
Theorem rebalancing_keeps_the_product (r a0 a1 d : R) :
  0 < r -> 0 <= a0 * a1 ->
  let n0 :=
    current_value_usd (IndexTs.calculateImpermanentLoss r 1 0 a0 a1 0 d) / r in
  let n1 :=
    current_value_usd (IndexTs.calculateImpermanentLoss r 0 1 a0 a1 0 d) in
  n0 * n1 = a0 * a1
  /\ forall p0 p1 f,
       current_value_usd (IndexTs.calculateImpermanentLoss r p0 p1 a0 a1 f d)
       = n0 * p0 * r + n1 * p1 + f.
Proof.
  intros Hr Hk n0 n1.
  assert (H0 : n0 = sqrt (a0 * a1 / r)).
  { subst n0. unfold_real_programs. field. lra. }
  assert (H1 : n1 = sqrt (a0 * a1 * r)).
  { subst n1. unfold_real_programs. ring. }
  split.
  - rewrite H0, H1. rewrite <- sqrt_mult_alt.
    + replace (a0 * a1 / r * (a0 * a1 * r)) with ((a0 * a1) * (a0 * a1))
        by (field; lra).
      apply sqrt_square. exact Hk.
    + unfold Rdiv. apply Rmult_le_pos; [exact Hk |].
      left. apply Rinv_0_lt_compat. exact Hr.
  - intros p0 p1 f. rewrite H0, H1. unfold_real_programs. ring.
Qed.

Lemma rebalancing_keeps_the_product_witness :
  0 < 4 /\ 0 <= 1 * 9
  /\ current_value_usd (IndexTs.calculateImpermanentLoss 4 1 0 1 9 0 30) / 4
     * current_value_usd (IndexTs.calculateImpermanentLoss 4 0 1 1 9 0 30)
     = 1 * 9.
Proof.
  assert (Hr : 0 < 4) by lra.
  assert (Hk : 0 <= 1 * 9) by lra.
  split; [exact Hr |]. split; [exact Hk |].
  exact (proj1 (rebalancing_keeps_the_product 4 1 9 30 Hr Hk)).
Defined.

(** X2.  The size of the position does not matter to the percentages:
    multiplying both amounts and the fees by [c > 0] leaves
    [il_percentage], [fee_apr], [net_apr] and the recommendation as they
    are, in both programs, and multiplies the USD values returned by
    [src/index.ts] by [c]. *)
Theorem position_size_homogeneity (c r p0 p1 a0 a1 f d : R) :
  0 < c ->
  let u := IndexTs.calculateImpermanentLoss r p0 p1 a0 a1 f d in
  let uc := IndexTs.calculateImpermanentLoss r p0 p1 (c * a0) (c * a1)
              (c * f) d in
  let s := SrcIndexTs.calculateImpermanentLoss r p0 p1 a0 a1 f d in
  let sc := SrcIndexTs.calculateImpermanentLoss r p0 p1 (c * a0) (c * a1)
              (c * f) d in
  (il_percentage uc = il_percentage u
   /\ fee_apr uc = fee_apr u
   /\ net_apr uc = net_apr u
   /\ recommendation uc = recommendation u)
  /\ (il_usd uc = c * il_usd u
      /\ initial_value_usd uc = c * initial_value_usd u
      /\ current_value_usd uc = c * current_value_usd u
      /\ hodl_value_usd uc = c * hodl_value_usd u)
  /\ (il_percentage sc = il_percentage s
      /\ fee_apr sc = fee_apr s
      /\ net_apr sc = net_apr s
      /\ recommendation sc = recommendation s).
Proof.
  intros Hc u uc s sc.
  assert (Hci : c * / c = 1) by (apply Rinv_r; lra).
  assert (H0 : sqrt (c * a0 * (c * a1) / r) = c * sqrt (a0 * a1 / r)).
  { replace (c * a0 * (c * a1) / r) with (c * c * (a0 * a1 / r))
      by (unfold Rdiv; ring).
    apply sqrt_scale. lra. }
  assert (H1 : sqrt (c * a0 * (c * a1) * r) = c * sqrt (a0 * a1 * r)).
  { replace (c * a0 * (c * a1) * r) with (c * c * (a0 * a1 * r)) by ring.
    apply sqrt_scale. lra. }
  assert (Husd : il_usd uc = c * il_usd u
                 /\ initial_value_usd uc = c * initial_value_usd u
                 /\ current_value_usd uc = c * current_value_usd u
                 /\ hodl_value_usd uc = c * hodl_value_usd u).
  { subst u uc. unfold_real_programs. rewrite H0, H1.
    repeat split; ring. }
  destruct Husd as (Hil & Hiv & Hcv & Hhv).
  assert (Hpct : il_percentage uc = il_percentage u).
  { change (il_percentage uc) with (il_usd uc / hodl_value_usd uc * 100).
    change (il_percentage u) with (il_usd u / hodl_value_usd u * 100).
    rewrite Hil, Hhv. unfold Rdiv. rewrite Rinv_mult.
    transitivity (c * / c * (il_usd u * / hodl_value_usd u * 100));
      [ring | rewrite Hci; ring]. }
  assert (Hfa : fee_apr uc = fee_apr u).
  { change (fee_apr uc)
      with (c * f / d * 365 / initial_value_usd uc * 100).
    change (fee_apr u) with (f / d * 365 / initial_value_usd u * 100).
    rewrite Hiv. unfold Rdiv. rewrite Rinv_mult.
    transitivity (c * / c * (f * / d * 365 * / initial_value_usd u * 100));
      [ring | rewrite Hci; ring]. }
  assert (Hna : net_apr uc = net_apr u).
  { change (net_apr uc) with (fee_apr uc + il_percentage uc / d * 365).
    change (net_apr u) with (fee_apr u + il_percentage u / d * 365).
    rewrite Hfa, Hpct. reflexivity. }
  assert (Hrec : recommendation uc = recommendation u
                 /\ recommendation sc = recommendation s).
  { destruct (recommendation_by_table r p0 p1 a0 a1 f d) as [Hs Hu].
    destruct (recommendation_by_table r p0 p1 (c * a0) (c * a1) (c * f) d)
      as [Hsc Huc].
    cbv zeta in Hs, Hu, Hsc, Huc.
    fold u in Hs, Hu. fold uc in Hsc, Huc. fold s in Hs. fold sc in Hsc.
    fold u. fold uc.
    rewrite Hs, Hu, Hsc, Huc, Hpct, Hfa, Hna. split; reflexivity. }
  destruct Hrec as [Hru Hrs].
  repeat split; try assumption.
  - change (il_percentage sc) with (Ideal.toFixed2 (il_percentage uc)).
    rewrite Hpct. reflexivity.
  - change (fee_apr sc) with (Ideal.toFixed2 (fee_apr uc)).
    rewrite Hfa. reflexivity.
  - change (net_apr sc) with (Ideal.toFixed2 (net_apr uc)).
    rewrite Hna. reflexivity.
Qed.

Lemma position_size_homogeneity_witness :
  0 < 5
  /\ il_percentage
       (SrcIndexTs.calculateImpermanentLoss (3 / 2) 2000 1 (5 * 1) (5 * 1)
          (5 * 10) 30)
     = il_percentage
         (SrcIndexTs.calculateImpermanentLoss (3 / 2) 2000 1 1 1 10 30).
Proof.
  assert (Hc : 0 < 5) by lra.
  split; [exact Hc |].
  destruct (position_size_homogeneity 5 (3 / 2) 2000 1 1 1 10 30 Hc)
    as (_ & _ & Hs & _).
  exact Hs.
Defined.

(** X3.  Naming the tokens the other way round changes nothing: swapping
    the two tokens (amounts and prices) and inverting the price ratio gives
    the same [il_percentage]; the USD loss is expressed at the other
    token's price level, [il_usd = priceRatio * il_usd'].  Needs a price
    ratio above zero and a positive product of amounts. *)
Theorem token_swap_symmetry (r p0 p1 a0 a1 f d : R) :
  0 < r -> 0 < a0 * a1 ->
  let u := IndexTs.calculateImpermanentLoss r p0 p1 a0 a1 f d in
  let u' := IndexTs.calculateImpermanentLoss (/ r) p1 p0 a1 a0 f d in
  il_percentage u = il_percentage u'
  /\ il_usd u = r * il_usd u'
  /\ hodl_value_usd u = r * hodl_value_usd u'
  /\ initial_value_usd u = initial_value_usd u'.
Proof.
  intros Hr Hk u u'.
  assert (Hri : r * / r = 1) by (apply Rinv_r; lra).
  assert (Hk' : 0 < a1 * a0) by lra.
  assert (Hir : 0 < / r) by (apply Rinv_0_lt_compat; exact Hr).
  assert (Hh : hodl_value_usd u = r * hodl_value_usd u').
  { subst u u'. unfold_real_programs.
    transitivity (a0 * p0 * r + r * / r * (a1 * p1)); [rewrite Hri |]; ring. }
  assert (Hc : Spec.currentValueUsd r p0 p1 a0 a1
               = r * Spec.currentValueUsd (/ r) p1 p0 a1 a0).
  { rewrite (currentValueUsd_closed r p0 p1 a0 a1 Hk Hr).
    rewrite (currentValueUsd_closed (/ r) p1 p0 a1 a0 Hk' Hir).
    rewrite <- (sqrt_div_times (a0 * a1) r Hk Hr).
    replace (a1 * a0 * / r) with (a0 * a1 / r) by (unfold Rdiv; ring).
    ring. }
  assert (Hil : il_usd u = r * il_usd u').
  { change (il_usd u)
      with (Spec.currentValueUsd r p0 p1 a0 a1 - hodl_value_usd u).
    change (il_usd u')
      with (Spec.currentValueUsd (/ r) p1 p0 a1 a0 - hodl_value_usd u').
    rewrite Hc, Hh. ring. }
  split; [| split; [exact Hil | split; [exact Hh |]]].
  - change (il_percentage u) with (il_usd u / hodl_value_usd u * 100).
    change (il_percentage u') with (il_usd u' / hodl_value_usd u' * 100).
    rewrite Hil, Hh. unfold Rdiv. rewrite Rinv_mult.
    transitivity (r * / r * (il_usd u' * / hodl_value_usd u' * 100));
      [ring | rewrite Hri; ring].
  - subst u u'. unfold_real_programs. ring.
Qed.

Lemma token_swap_symmetry_witness :
  0 < 4 /\ 0 < 1 * 1
  /\ il_percentage (IndexTs.calculateImpermanentLoss 4 1 3 1 1 0 30)
     = il_percentage (IndexTs.calculateImpermanentLoss (/ 4) 3 1 1 1 0 30).
Proof.
  assert (Hr : 0 < 4) by lra.
  assert (Hk : 0 < 1 * 1) by lra.
  split; [exact Hr |]. split; [exact Hk |].
  exact (proj1 (token_swap_symmetry 4 1 3 1 1 0 30 Hr Hk)).
Defined.

Lemma toFixed2_opp (x : R) : Ideal.toFixed2 (- x) = - Ideal.toFixed2 x.
Proof.
  unfold Ideal.toFixed2.
  destruct (Rlt_dec x 0) as [Hx | Hx];
    destruct (Rlt_dec (- x) 0) as [Hm | Hm]; try lra.
  - rewrite Ropp_involutive. reflexivity.
  - assert (Hz : x = 0) by lra. subst x. rewrite Ropp_0.
    rewrite (Int_part_unique (100 * 0 + / 2) 0%Z) by lra. lra.
Qed.

(** X4.  On inputs that satisfy the preconditions no value is negative and
    no more than the whole hodl value is lost.  In [src/index.ts]: initial
    and hodl value are at least 0, the current value is at least the fees,
    [il_usd >= - hodl_value_usd], and [il_percentage >= -100] when the hodl
    value is positive.  In [src/src/index.ts], on the rounded fields:
    initial, hodl and current value are at least 0, the current value is at
    least the fees rounded to two decimals (it can be below the fees
    themselves), [il_usd >= - hodl_value_usd], and [il_percentage >= -100]
    when the hodl value is positive. *)
Theorem values_are_bounded (r p0 p1 a0 a1 f d : R) :
  Spec.valid_input r p0 p1 a0 a1 f d ->
  let u := IndexTs.calculateImpermanentLoss r p0 p1 a0 a1 f d in
  let s := SrcIndexTs.calculateImpermanentLoss r p0 p1 a0 a1 f d in
  (0 <= initial_value_usd u /\ 0 <= hodl_value_usd u
   /\ f <= current_value_usd u /\ - hodl_value_usd u <= il_usd u
   /\ (0 < hodl_value_usd u -> -100 <= il_percentage u))
  /\ (0 <= initial_value_usd s /\ 0 <= hodl_value_usd s
      /\ 0 <= current_value_usd s
      /\ Ideal.toFixed2 f <= current_value_usd s
      /\ - hodl_value_usd s <= il_usd s
      /\ (0 < hodl_value_usd u -> -100 <= il_percentage s)).
Proof.
  intros [Hr H0 H1 Hk Hd Hf Hp0 Hp1] u s.
  assert (Hiv : 0 <= initial_value_usd u).
  { subst u. unfold_real_programs.
    pose proof (Rmult_le_pos _ _ H0 Hp0). pose proof (Rmult_le_pos _ _ H1 Hp1).
    lra. }
  assert (Hhv : 0 <= hodl_value_usd u).
  { subst u. unfold_real_programs.
    pose proof (Rmult_le_pos _ _ (Rmult_le_pos _ _ H0 Hp0) (Rlt_le _ _ Hr)).
    pose proof (Rmult_le_pos _ _ H1 Hp1). lra. }
  assert (Hcur : 0 <= Spec.currentValueUsd r p0 p1 a0 a1).
  { rewrite currentValueUsd_closed by assumption.
    apply Rmult_le_pos; [apply sqrt_pos | lra]. }
  assert (Hcv : f <= current_value_usd u).
  { change (current_value_usd u)
      with (Spec.currentValueUsd r p0 p1 a0 a1 + f). lra. }
  assert (Hil : - hodl_value_usd u <= il_usd u).
  { change (il_usd u)
      with (Spec.currentValueUsd r p0 p1 a0 a1 - hodl_value_usd u). lra. }
  assert (Hpct : 0 < hodl_value_usd u -> -100 <= il_percentage u).
  { intros Hpos.
    change (il_percentage u) with (il_usd u / hodl_value_usd u * 100).
    assert (Hinv : 0 < / hodl_value_usd u)
      by (apply Rinv_0_lt_compat; exact Hpos).
    assert (Hone : hodl_value_usd u * / hodl_value_usd u = 1)
      by (apply Rinv_r; lra).
    assert (Hq : -1 <= il_usd u * / hodl_value_usd u) by nra.
    unfold Rdiv. lra. }
  split; [repeat split; assumption |].
  change (initial_value_usd s) with (Ideal.toFixed2 (initial_value_usd u)).
  change (hodl_value_usd s) with (Ideal.toFixed2 (hodl_value_usd u)).
  change (current_value_usd s) with (Ideal.toFixed2 (current_value_usd u)).
  change (il_usd s) with (Ideal.toFixed2 (il_usd u)).
  change (il_percentage s) with (Ideal.toFixed2 (il_percentage u)).
  split; [apply toFixed2_nonneg; exact Hiv |].
  split; [apply toFixed2_nonneg; exact Hhv |].
  split; [apply toFixed2_nonneg; lra |].
  split; [apply toFixed2_monotone; exact Hcv |].
  split.
  - rewrite <- toFixed2_opp. apply toFixed2_monotone. exact Hil.
  - intros Hpos.
    replace (-100) with (Ideal.toFixed2 (-100)).
    + apply toFixed2_monotone. apply Hpct. exact Hpos.
    + rewrite (toFixed2_neg_val _ 10000%Z); lra.
Qed.

Lemma values_are_bounded_witness :
  Spec.valid_input 4 1 3 1 1 0 30
  /\ - hodl_value_usd (SrcIndexTs.calculateImpermanentLoss 4 1 3 1 1 0 30)
     <= il_usd (SrcIndexTs.calculateImpermanentLoss 4 1 3 1 1 0 30).
Proof.
  assert (Hv : Spec.valid_input 4 1 3 1 1 0 30) by (constructor; lra).
  split; [exact Hv |].
  destruct (values_are_bounded 4 1 3 1 1 0 30 Hv)
    as [_ (_ & _ & _ & _ & H & _)].
  exact H.
Defined.

(** X5.  Exactly when the calculator reports no loss or gain: on inputs
    that satisfy the preconditions, [il_usd = 0] if and only if
    [amount0 * priceRatio = amount1] or
    [amount0 * priceRatio * initialPrice0^2 = amount1 * initialPrice1^2];
    and [il_usd <= 0] if and only if the two differences
    [sqrt (amount0 * priceRatio) - sqrt amount1] and
    [sqrt (amount0 * priceRatio) * initialPrice0 - sqrt amount1 * initialPrice1]
    do not have opposite signs. *)
Theorem zero_loss_locus (r p0 p1 a0 a1 f d : R) :
  Spec.valid_input r p0 p1 a0 a1 f d ->
  let u := IndexTs.calculateImpermanentLoss r p0 p1 a0 a1 f d in
  (il_usd u = 0
   <-> a0 * r = a1 \/ a0 * r * (p0 * p0) = a1 * (p1 * p1))
  /\ (il_usd u <= 0
      <-> 0 <= (sqrt (a0 * r) - sqrt a1)
               * (sqrt (a0 * r) * p0 - sqrt a1 * p1)).
Proof.
  intros [Hr H0 H1 Hk Hd Hf Hp0 Hp1] u.
  pose proof (hodl_minus_current r p0 p1 a0 a1 H0 H1 Hk Hr) as Hdiff.
  assert (Hil : il_usd u
                = - ((sqrt (a0 * r) - sqrt a1)
                     * (sqrt (a0 * r) * p0 - sqrt a1 * p1))).
  { change (il_usd u)
      with (Spec.currentValueUsd r p0 p1 a0 a1
            - Spec.hodlValueUsd r p0 p1 a0 a1).
    rewrite <- Hdiff. ring. }
  assert (Ha0r : 0 <= a0 * r) by (apply Rmult_le_pos; lra).
  pose proof (sqrt_sqrt (a0 * r) Ha0r) as Hu.
  pose proof (sqrt_sqrt a1 H1) as Hv.
  pose proof (sqrt_pos (a0 * r)) as Hu0.
  pose proof (sqrt_pos a1) as Hv0.
  rewrite Hil.
  set (x := sqrt (a0 * r)) in *. set (y := sqrt a1) in *.
  split; [| split; intros; lra].
  split.
  - intros Hz.
    assert (Hprod : (x - y) * (x * p0 - y * p1) = 0) by lra.
    apply Rmult_integral in Hprod. destruct Hprod as [Hxy | Hxy].
    + left. rewrite <- Hu, <- Hv. replace x with y by lra. reflexivity.
    + right. rewrite <- Hu, <- Hv.
      replace (x * x * (p0 * p0)) with ((x * p0) * (x * p0)) by ring.
      replace (x * p0) with (y * p1) by lra. ring.
  - intros [He | He].
    + assert (Hxy : x = y).
      { apply Rsqr_inj; [assumption | assumption |].
        unfold Rsqr. rewrite Hu, Hv. exact He. }
      rewrite Hxy. ring.
    + assert (Hxy : x * p0 = y * p1).
      { apply Rsqr_inj.
        - apply Rmult_le_pos; assumption.
        - apply Rmult_le_pos; assumption.
        - unfold Rsqr.
          replace (x * p0 * (x * p0)) with (x * x * (p0 * p0)) by ring.
          replace (y * p1 * (y * p1)) with (y * y * (p1 * p1)) by ring.
          rewrite Hu, Hv. exact He. }
      rewrite Hxy. ring.
Qed.

Lemma zero_loss_locus_witness :
  Spec.valid_input 4 1 1 1 4 0 30
  /\ il_usd (IndexTs.calculateImpermanentLoss 4 1 1 1 4 0 30) = 0.
Proof.
  assert (Hv : Spec.valid_input 4 1 1 1 4 0 30) by (constructor; lra).
  split; [exact Hv |].
  apply (proj1 (zero_loss_locus 4 1 1 1 4 0 30 Hv)).
  left. lra.
Defined.

(** X6.  Annualisation is linear in time: holding [c] times as long, with
    everything else equal, divides [fee_apr] and [net_apr] by [c] and leaves
    the loss fields untouched. *)
Theorem annualisation_scales_with_days (c r p0 p1 a0 a1 f d : R) :
  0 < c ->
  let u := IndexTs.calculateImpermanentLoss r p0 p1 a0 a1 f d in
  let uc := IndexTs.calculateImpermanentLoss r p0 p1 a0 a1 f (c * d) in
  fee_apr uc = fee_apr u / c
  /\ net_apr uc = net_apr u / c
  /\ il_percentage uc = il_percentage u
  /\ il_usd uc = il_usd u.
Proof.
  intros Hc u uc. subst u uc. unfold_real_programs.
  repeat split; unfold Rdiv; rewrite ?Rinv_mult; ring.
Qed.

Lemma annualisation_scales_with_days_witness :
  0 < 2
  /\ net_apr (IndexTs.calculateImpermanentLoss (3 / 2) 2000 1 1 1 10 (2 * 30))
     = net_apr (IndexTs.calculateImpermanentLoss (3 / 2) 2000 1 1 1 10 30) / 2.
Proof.
  assert (Hc : 0 < 2) by lra.
  split; [exact Hc |].
  exact (proj1 (proj2
           (annualisation_scales_with_days 2 (3 / 2) 2000 1 1 1 10 30 Hc))).
Defined.

(** The tests under which rule 4's label is returned, in every
    interpretation. *)
Lemma high_il_tests {num : Type} {N : JSNumber num} (r p0 p1 a0 a1 f d : num) :
  recommendation (SrcIndexTs.calculateImpermanentLoss r p0 p1 a0 a1 f d)
  = "High IL detected - evaluate exit strategy"%string ->
  let u := IndexTs.calculateImpermanentLoss r p0 p1 a0 a1 f d in
  fst (Spec.rule1 (il_percentage u) (fee_apr u)) = false
  /\ fst (Spec.rule3 (net_apr u)) = false
  /\ fst (Spec.rule4 (il_percentage u)) = true.
Proof.
  intros Hrec u.
  destruct (recommendation_by_table r p0 p1 a0 a1 f d) as [Hs _].
  cbv zeta in Hs. fold u in Hs. rewrite Hs in Hrec. clear Hs.
  revert Hrec.
  unfold Spec.classify, Spec.rule_table, Spec.rule1, Spec.rule2, Spec.rule3,
    Spec.rule4.
  cbn [Spec.first_match fst].
  repeat match goal with
         | |- context [if ?c then _ else _] => destruct c
         end; intros Hrec; try discriminate; repeat split.
Qed.

(** X9.  In exact arithmetic, on inputs that satisfy the preconditions and
    have a positive initial value (so that nothing is divided by zero),
    "High IL detected - evaluate exit strategy" is only returned for
    positions held at most 365 days: past one year, a loss beyond 10% that
    rule 1 lets through is annualised to less than the fee APR, so rule 2
    or rule 3 answers first. *)
Theorem high_il_label_needs_a_short_holding (r p0 p1 a0 a1 f d : R) :
  Spec.valid_input r p0 p1 a0 a1 f d ->
  0 < a0 * p0 + a1 * p1 ->
  recommendation (SrcIndexTs.calculateImpermanentLoss r p0 p1 a0 a1 f d)
  = "High IL detected - evaluate exit strategy"%string ->
  d <= 365.
Proof.
  intros [Hr H0 H1 Hk Hd Hf Hp0 Hp1] HV Hrec.
  destruct (high_il_tests r p0 p1 a0 a1 f d Hrec) as (Hc1 & Hc3 & Hc4).
  set (u := IndexTs.calculateImpermanentLoss r p0 p1 a0 a1 f d) in *.
  unfold Spec.rule1, Spec.rule3, Spec.rule4 in Hc1, Hc3, Hc4.
  cbn [fst js_lt js_gt js_abs js_lit Ideal.R_JSNumber] in Hc1, Hc3, Hc4.
  unfold Ideal.ltb in Hc1, Hc3, Hc4.
  destruct (Rlt_dec (il_percentage u) (-10)) as [Hil | _];
    [clear Hc4 | discriminate].
  destruct (Rlt_dec 0 (net_apr u)) as [_ | Hna]; [discriminate | clear Hc3].
  destruct (Rlt_dec (il_percentage u) (-5)) as [_ | Hno]; [| lra].
  destruct (Rlt_dec (fee_apr u) (Rabs (il_percentage u))) as [_ | Hfa];
    [discriminate | clear Hc1].
  rewrite Rabs_left in Hfa by lra.
  change (net_apr u) with (fee_apr u + il_percentage u / d * 365) in Hna.
  apply Rnot_lt_le. intros Hlong.
  assert (Ht : 0 < / d) by (apply Rinv_0_lt_compat; exact Hd).
  assert (Hdt : d * / d = 1) by (apply Rinv_r; lra).
  unfold Rdiv in Hna.
  set (il := il_percentage u) in *. set (t := / d) in *.
  assert (Ht1 : 365 * t < 1) by nra.
  nra.
Qed.

Lemma high_il_label_needs_a_short_holding_witness :
  Spec.valid_input 4 1 1 1 1 (/ 10) 73
  /\ 0 < 1 * 1 + 1 * 1
  /\ recommendation
       (SrcIndexTs.calculateImpermanentLoss 4 1 1 1 1 (/ 10) 73)
     = "High IL detected - evaluate exit strategy"%string
  /\ 73 <= 365.
Proof.
  assert (Hv : Spec.valid_input 4 1 1 1 1 (/ 10) 73) by (constructor; lra).
  assert (HV : 0 < 1 * 1 + 1 * 1) by lra.
  assert (Hrec : recommendation
                   (SrcIndexTs.calculateImpermanentLoss 4 1 1 1 1 (/ 10) 73)
                 = "High IL detected - evaluate exit strategy"%string).
  { unfold_real_programs.
    replace (1 * 1 / 4) with (/ 2 * / 2) by lra.
    replace (1 * 1 * 4) with (2 * 2) by lra.
    rewrite !sqrt_square by lra.
    match goal with
    | |- context [Rabs ?x] => rewrite (Rabs_left x) by lra
    end.
    unfold Ideal.ltb.
    repeat match goal with
           | |- context [Rlt_dec ?x ?y] => destruct (Rlt_dec x y)
           end;
      cbn [andb]; try reflexivity; exfalso; lra. }
  split; [exact Hv |]. split; [exact HV |]. split; [exact Hrec |].
  exact (high_il_label_needs_a_short_holding 4 1 1 1 1 (/ 10) 73 Hv HV Hrec).
Defined.

(** X20.  The reporting currency does not matter to the percentages:
    multiplying both initial prices and the fees by [c > 0] leaves
    [il_percentage], [fee_apr], [net_apr] and the recommendation as they
    are, in both programs, and multiplies the USD values returned by
    [src/index.ts] by [c]. *)
Theorem currency_scale_invariance (c r p0 p1 a0 a1 f d : R) :
  0 < c ->
  let u := IndexTs.calculateImpermanentLoss r p0 p1 a0 a1 f d in
  let uc := IndexTs.calculateImpermanentLoss r (c * p0) (c * p1) a0 a1
              (c * f) d in
  let s := SrcIndexTs.calculateImpermanentLoss r p0 p1 a0 a1 f d in
  let sc := SrcIndexTs.calculateImpermanentLoss r (c * p0) (c * p1) a0 a1
              (c * f) d in
  (il_percentage uc = il_percentage u
   /\ fee_apr uc = fee_apr u
   /\ net_apr uc = net_apr u
   /\ recommendation uc = recommendation u)
  /\ (il_usd uc = c * il_usd u
      /\ initial_value_usd uc = c * initial_value_usd u
      /\ current_value_usd uc = c * current_value_usd u
      /\ hodl_value_usd uc = c * hodl_value_usd u)
  /\ (il_percentage sc = il_percentage s
      /\ fee_apr sc = fee_apr s
      /\ net_apr sc = net_apr s
      /\ recommendation sc = recommendation s).
Proof.
  intros Hc u uc s sc.
  assert (Hci : c * / c = 1) by (apply Rinv_r; lra).
  assert (Husd : il_usd uc = c * il_usd u
                 /\ initial_value_usd uc = c * initial_value_usd u
                 /\ current_value_usd uc = c * current_value_usd u
                 /\ hodl_value_usd uc = c * hodl_value_usd u).
  { subst u uc. unfold_real_programs. repeat split; ring. }
  destruct Husd as (Hil & Hiv & Hcv & Hhv).
  assert (Hpct : il_percentage uc = il_percentage u).
  { change (il_percentage uc) with (il_usd uc / hodl_value_usd uc * 100).
    change (il_percentage u) with (il_usd u / hodl_value_usd u * 100).
    rewrite Hil, Hhv. unfold Rdiv. rewrite Rinv_mult.
    transitivity (c * / c * (il_usd u * / hodl_value_usd u * 100));
      [ring | rewrite Hci; ring]. }
  assert (Hfa : fee_apr uc = fee_apr u).
  { change (fee_apr uc)
      with (c * f / d * 365 / initial_value_usd uc * 100).
    change (fee_apr u) with (f / d * 365 / initial_value_usd u * 100).
    rewrite Hiv. unfold Rdiv. rewrite Rinv_mult.
    transitivity (c * / c * (f * / d * 365 * / initial_value_usd u * 100));
      [ring | rewrite Hci; ring]. }
  assert (Hna : net_apr uc = net_apr u).
  { change (net_apr uc) with (fee_apr uc + il_percentage uc / d * 365).
    change (net_apr u) with (fee_apr u + il_percentage u / d * 365).
    rewrite Hfa, Hpct. reflexivity. }
  assert (Hrec : recommendation uc = recommendation u
                 /\ recommendation sc = recommendation s).
  { destruct (recommendation_by_table r p0 p1 a0 a1 f d) as [Hs Hu].
    destruct (recommendation_by_table r (c * p0) (c * p1) a0 a1 (c * f) d)
      as [Hsc Huc].
    cbv zeta in Hs, Hu, Hsc, Huc.
    fold u in Hs, Hu. fold uc in Hsc, Huc. fold s in Hs. fold sc in Hsc.
    fold u. fold uc.
    rewrite Hs, Hu, Hsc, Huc, Hpct, Hfa, Hna. split; reflexivity. }
  destruct Hrec as [Hru Hrs].
  repeat split; try assumption.
  - change (il_percentage sc) with (Ideal.toFixed2 (il_percentage uc)).
    rewrite Hpct. reflexivity.
  - change (fee_apr sc) with (Ideal.toFixed2 (fee_apr uc)).
    rewrite Hfa. reflexivity.
  - change (net_apr sc) with (Ideal.toFixed2 (net_apr uc)).
    rewrite Hna. reflexivity.
Qed.

Lemma currency_scale_invariance_witness :
  0 < 100
  /\ il_percentage
       (SrcIndexTs.calculateImpermanentLoss (3 / 2) (100 * 2000) (100 * 1)
          1 1 (100 * 10) 30)
     = il_percentage
         (SrcIndexTs.calculateImpermanentLoss (3 / 2) 2000 1 1 1 10 30).
Proof.
  assert (Hc : 0 < 100) by lra.
  split; [exact Hc |].
  destruct (currency_scale_invariance 100 (3 / 2) 2000 1 1 1 10 30 Hc)
    as (_ & _ & Hs & _).
  exact Hs.
Defined.

(** X21.  More fees never lower the yield: on inputs that satisfy the
    preconditions, with a positive initial value, raising [feesEarned]
    leaves the loss fields as they are and does not lower [fee_apr],
    [net_apr] or the reported current value, before or after rounding. *)
Theorem yield_is_monotone_in_fees (r p0 p1 a0 a1 f f' d : R) :
  Spec.valid_input r p0 p1 a0 a1 f d ->
  0 < a0 * p0 + a1 * p1 -> f <= f' ->
  let u := IndexTs.calculateImpermanentLoss r p0 p1 a0 a1 f d in
  let u' := IndexTs.calculateImpermanentLoss r p0 p1 a0 a1 f' d in
  let s := SrcIndexTs.calculateImpermanentLoss r p0 p1 a0 a1 f d in
  let s' := SrcIndexTs.calculateImpermanentLoss r p0 p1 a0 a1 f' d in
  (il_usd u' = il_usd u /\ il_percentage u' = il_percentage u)
  /\ (fee_apr u <= fee_apr u' /\ net_apr u <= net_apr u'
      /\ current_value_usd u <= current_value_usd u')
  /\ (fee_apr s <= fee_apr s' /\ net_apr s <= net_apr s'
      /\ current_value_usd s <= current_value_usd s').
Proof.
  intros [Hr H0 H1 Hk Hd Hf Hp0 Hp1] HV Hff u u' s s'.
  assert (Hid : 0 < / d) by (apply Rinv_0_lt_compat; exact Hd).
  assert (HiV : 0 < / (a0 * p0 + a1 * p1))
    by (apply Rinv_0_lt_compat; exact HV).
  assert (Hfa : fee_apr u <= fee_apr u').
  { subst u u'. unfold_real_programs. unfold Rdiv.
    assert (Hq : 0 <= / d * 365 * / (a0 * p0 + a1 * p1) * 100).
    { apply Rmult_le_pos; [| lra]. apply Rmult_le_pos; [| lra].
      apply Rmult_le_pos; lra. }
    replace (f * / d * 365 * / (a0 * p0 + a1 * p1) * 100)
      with (f * (/ d * 365 * / (a0 * p0 + a1 * p1) * 100)) by ring.
    replace (f' * / d * 365 * / (a0 * p0 + a1 * p1) * 100)
      with (f' * (/ d * 365 * / (a0 * p0 + a1 * p1) * 100)) by ring.
    apply Rmult_le_compat_r; assumption. }
  assert (Hna : net_apr u <= net_apr u').
  { change (net_apr u) with (fee_apr u + il_percentage u / d * 365).
    change (net_apr u') with (fee_apr u' + il_percentage u / d * 365).
    lra. }
  assert (Hcv : current_value_usd u <= current_value_usd u').
  { change (current_value_usd u)
      with (Spec.currentValueUsd r p0 p1 a0 a1 + f).
    change (current_value_usd u')
      with (Spec.currentValueUsd r p0 p1 a0 a1 + f').
    lra. }
  split; [split; reflexivity |].
  split; [repeat split; assumption |].
  change (fee_apr s) with (Ideal.toFixed2 (fee_apr u)).
  change (fee_apr s') with (Ideal.toFixed2 (fee_apr u')).
  change (net_apr s) with (Ideal.toFixed2 (net_apr u)).
  change (net_apr s') with (Ideal.toFixed2 (net_apr u')).
  change (current_value_usd s) with (Ideal.toFixed2 (current_value_usd u)).
  change (current_value_usd s') with (Ideal.toFixed2 (current_value_usd u')).
  repeat split; apply toFixed2_monotone; assumption.
Qed.

Lemma yield_is_monotone_in_fees_witness :
  Spec.valid_input (3 / 2) 2000 1 1 1 10 30
  /\ 0 < 1 * 2000 + 1 * 1 /\ 10 <= 25
  /\ net_apr (SrcIndexTs.calculateImpermanentLoss (3 / 2) 2000 1 1 1 10 30)
     <= net_apr (SrcIndexTs.calculateImpermanentLoss (3 / 2) 2000 1 1 1 25 30).
Proof.
  assert (Hv : Spec.valid_input (3 / 2) 2000 1 1 1 10 30)
    by (constructor; lra).
  assert (HV : 0 < 1 * 2000 + 1 * 1) by lra.
  assert (Hf : 10 <= 25) by lra.
  split; [exact Hv |]. split; [exact HV |]. split; [exact Hf |].
  destruct (yield_is_monotone_in_fees (3 / 2) 2000 1 1 1 10 25 30 Hv HV Hf)
    as (_ & _ & _ & H & _).
  exact H.
Defined.

End CalculatorOverTheReals.

(** * Further properties of the request handling *)

Section RequestHandling.
Context {num : Type} {N : JSNumber num}.

Lemma z_number_Some (v : jsvalue num) (x : num) :
  SrcIndexTs.z_number v = Some x <-> v = JSNum x /\ js_isFinite x = true.
Proof.
  unfold SrcIndexTs.z_number. split.
  - destruct v as [| | b | y | t]; try discriminate.
    destruct (js_isFinite y) eqn:Hy; [| discriminate].
    intros Heq. injection Heq as ->. split; [reflexivity | exact Hy].
  - intros [-> Hx]. rewrite Hx. reflexivity.
Qed.

Lemma get_field_absent (key : string) (body : jsobject num) :
  ~ In key (map fst body) -> get_field key body = JSUndefined.
Proof.
  induction body as [| [k v] rest IH]; intros Hnot; [reflexivity |].
  cbn [get_field]. cbn [map fst In] in Hnot.
  destruct (String.eqb k key) eqn:Hk.
  - apply String.eqb_eq in Hk. exfalso. apply Hnot. left. exact Hk.
  - apply IH. intros Hin. apply Hnot. right. exact Hin.
Qed.

Lemma get_field_other (key k : string) (v : jsvalue num)
    (body : jsobject num) :
  k <> key -> get_field key ((k, v) :: body) = get_field key body.
Proof.
  intros Hne. cbn [get_field].
  apply String.eqb_neq in Hne. rewrite Hne. reflexivity.
Qed.

(** X11.  [ILInputSchema] accepts a body exactly when each of the seven
    keys is bound to a finite number (NaN and the infinities are refused),
    and then returns those seven numbers, field by field. *)
Theorem ILInputSchema_accepts_iff (body : jsobject num) (i : ILInput num) :
  SrcIndexTs.ILInputSchema body = Some i
  <-> has_number body "initial_price_0" (initial_price_0 i)
      /\ has_number body "initial_price_1" (initial_price_1 i)
      /\ has_number body "current_price_ratio" (current_price_ratio i)
      /\ has_number body "amount_0" (amount_0 i)
      /\ has_number body "amount_1" (amount_1 i)
      /\ has_number body "fees_earned" (fees_earned i)
      /\ has_number body "days_held" (days_held i).
Proof.
  unfold SrcIndexTs.ILInputSchema, has_number. split.
  - destruct (SrcIndexTs.z_number (get_field "initial_price_0" body))
      as [x0 |] eqn:H0; [| discriminate].
    destruct (SrcIndexTs.z_number (get_field "initial_price_1" body))
      as [x1 |] eqn:H1; [| discriminate].
    destruct (SrcIndexTs.z_number (get_field "current_price_ratio" body))
      as [x2 |] eqn:H2; [| discriminate].
    destruct (SrcIndexTs.z_number (get_field "amount_0" body))
      as [x3 |] eqn:H3; [| discriminate].
    destruct (SrcIndexTs.z_number (get_field "amount_1" body))
      as [x4 |] eqn:H4; [| discriminate].
    destruct (SrcIndexTs.z_number (get_field "fees_earned" body))
      as [x5 |] eqn:H5; [| discriminate].
    destruct (SrcIndexTs.z_number (get_field "days_held" body))
      as [x6 |] eqn:H6; [| discriminate].
    intros Heq. injection Heq as <-. cbn.
    apply z_number_Some in H0, H1, H2, H3, H4, H5, H6.
    repeat split; tauto.
  - destruct i as [x0 x1 x2 x3 x4 x5 x6]. cbn.
    intros (H0 & H1 & H2 & H3 & H4 & H5 & H6).
    apply z_number_Some in H0, H1, H2, H3, H4, H5, H6.
    rewrite H0, H1, H2, H3, H4, H5, H6. reflexivity.
Qed.

(** X12.  A body that lacks one of the seven keys is rejected, and the
    internal endpoint answers 500 to it even with the right API key. *)
Theorem missing_field_is_rejected (body : jsobject num) (key apiKey : string) :
  In key field_names -> ~ In key (map fst body) -> apiKey <> ""%string ->
  SrcIndexTs.ILInputSchema body = None
  /\ SrcIndexTs.internal_api (Some apiKey) (Some apiKey) body
     = SrcIndexTs.Json500.
Proof.
  intros Hkey Habsent Hapi.
  assert (Hund : SrcIndexTs.z_number (get_field key body) = None)
    by (rewrite (get_field_absent key body Habsent); reflexivity).
  assert (Hparse : SrcIndexTs.ILInputSchema body = None).
  { unfold SrcIndexTs.ILInputSchema.
    cbn [field_names In] in Hkey.
    repeat match goal with
           | H : _ \/ _ |- _ => destruct H as [H | H]
           end;
      try contradiction; subst key; rewrite Hund;
      repeat match goal with
             | |- context [match ?o with Some _ => _ | None => _ end] =>
                 destruct o
             end; reflexivity. }
  split; [exact Hparse |].
  unfold SrcIndexTs.internal_api.
  destruct apiKey as [| c rest]; [congruence |].
  rewrite String.eqb_refl. cbn [negb]. rewrite Hparse. reflexivity.
Qed.

(** X13.  Keys that the schema does not name are ignored: adding one to the
    body changes neither the verdict nor the parsed input. *)
Theorem unknown_key_is_ignored (key : string) (v : jsvalue num)
    (body : jsobject num) :
  ~ In key field_names ->
  SrcIndexTs.ILInputSchema ((key, v) :: body) = SrcIndexTs.ILInputSchema body.
Proof.
  intros Hnot. cbn [field_names In] in Hnot.
  unfold SrcIndexTs.ILInputSchema.
  rewrite !get_field_other by (intros Heq; apply Hnot; subst key; tauto).
  reflexivity.
Qed.

(** X14.  The internal endpoint answers in three ways only, and the API key
    is checked before the body is looked at: 200 exactly when a non-empty
    key is configured, the request carries that key and the schema accepts
    the body (the answer is then the handler's record); 401 exactly when a
    non-empty key is configured and the request does not carry it, whatever
    the body; 500 exactly when no key is configured, or the key is right
    and the schema rejects the body. *)
Theorem internal_api_answers (expectedKey apiKey : option string)
    (body : jsobject num) :
  (forall res,
      SrcIndexTs.internal_api expectedKey apiKey body
      = SrcIndexTs.Json200 res
      <-> exists key i,
            expectedKey = Some key /\ key <> ""%string /\ apiKey = Some key
            /\ SrcIndexTs.ILInputSchema body = Some i
            /\ res = SrcIndexTs.handler i)
  /\ (SrcIndexTs.internal_api expectedKey apiKey body = SrcIndexTs.Json401
      <-> exists key,
            expectedKey = Some key /\ key <> ""%string
            /\ apiKey <> Some key)
  /\ (SrcIndexTs.internal_api expectedKey apiKey body = SrcIndexTs.Json500
      <-> expectedKey = None \/ expectedKey = Some ""%string
          \/ exists key,
               expectedKey = Some key /\ key <> ""%string
               /\ apiKey = Some key
               /\ SrcIndexTs.ILInputSchema body = None).
Proof.
  unfold SrcIndexTs.internal_api.
  destruct expectedKey as [[| c key] |].
  - repeat split; intros; try discriminate; try tauto;
      repeat match goal with
             | H : exists _, _ |- _ => destruct H
             | H : _ /\ _ |- _ => destruct H
             end; congruence.
  - set (k := String c key).
    assert (Hk : k <> ""%string) by discriminate.
    destruct apiKey as [a |].
    + destruct (String.eqb a k) eqn:Ha; cbn [negb].
      * apply String.eqb_eq in Ha. subst a.
        destruct (SrcIndexTs.ILInputSchema body) as [i |] eqn:Hp.
        -- repeat split; intros; try discriminate.
           ++ exists k, i. repeat split; congruence.
           ++ destruct H as (k' & i' & Hk' & _ & _ & Hi & ->). congruence.
           ++ destruct H as (k' & Hk' & _ & Hne). congruence.
           ++ destruct H as [H | [H | (k' & _ & _ & _ & H)]]; discriminate.
        -- repeat split; intros; try discriminate.
           ++ destruct H as (k' & i' & _ & _ & _ & Hi & _). discriminate.
           ++ destruct H as (k' & Hk' & _ & Hne). congruence.
           ++ right. right. exists k. repeat split; assumption.
      * apply String.eqb_neq in Ha.
        repeat split; intros; try discriminate.
        -- destruct H as (k' & i' & Hk' & _ & Hak & _). congruence.
        -- exists k. repeat split; congruence.
        -- destruct H as [H | [H | (k' & Hk' & _ & Hak & _)]];
             try discriminate; congruence.
    + repeat split; intros; try discriminate.
      * destruct H as (k' & i' & _ & _ & Hak & _). discriminate.
      * exists k. repeat split; congruence.
      * destruct H as [H | [H | (k' & _ & _ & Hak & _)]]; discriminate.
  - repeat split; intros; try discriminate; try tauto;
      repeat match goal with
             | H : exists _, _ |- _ => destruct H
             | H : _ /\ _ |- _ => destruct H
             end; congruence.
Qed.

Lemma get_field_permutation (key : string) (b1 b2 : jsobject num) :
  Permutation b1 b2 -> NoDup (map fst b1) ->
  get_field key b1 = get_field key b2.
Proof.
  induction 1 as [| [k v] l l' Hperm IH | [k1 v1] [k2 v2] l
                  | l l' l'' H1 IH1 H2 IH2]; intros Hnd.
  - reflexivity.
  - cbn [get_field]. cbn [map fst] in Hnd.
    rewrite IH by (inversion Hnd; assumption). reflexivity.
  - cbn [get_field]. cbn [map fst] in Hnd.
    destruct (String.eqb k1 key) eqn:E1;
      destruct (String.eqb k2 key) eqn:E2; try reflexivity.
    apply String.eqb_eq in E1, E2. subst k1 k2.
    inversion Hnd as [| ? ? Hin _]. exfalso. apply Hin. left. reflexivity.
  - rewrite IH1 by assumption. apply IH2.
    apply (Permutation_NoDup (Permutation_map fst H1)). exact Hnd.
Qed.

(** X15.  The order of the fields in the request does not matter: two
    bodies with the same bindings, no key bound twice, are accepted or
    rejected alike and parse to the same input. *)
Theorem field_order_is_irrelevant (b1 b2 : jsobject num) :
  NoDup (map fst b1) -> Permutation b1 b2 ->
  SrcIndexTs.ILInputSchema b1 = SrcIndexTs.ILInputSchema b2
  /\ forall expectedKey apiKey,
       SrcIndexTs.internal_api expectedKey apiKey b1
       = SrcIndexTs.internal_api expectedKey apiKey b2.
Proof.
  intros Hnd Hperm.
  assert (Hparse : SrcIndexTs.ILInputSchema b1 = SrcIndexTs.ILInputSchema b2).
  { unfold SrcIndexTs.ILInputSchema.
    rewrite !(fun key => get_field_permutation key b1 b2 Hperm Hnd).
    reflexivity. }
  split; [exact Hparse |].
  intros expectedKey apiKey. unfold SrcIndexTs.internal_api.
  rewrite Hparse. reflexivity.
Qed.

End RequestHandling.

(** Witnesses, on binary64 requests. *)

Lemma missing_field_is_rejected_witness :
  In "days_held"%string field_names
  /\ ~ In "days_held"%string (map fst body_without_days)
  /\ "k"%string <> ""%string
  /\ SrcIndexTs.internal_api (Some "k"%string) (Some "k"%string)
       body_without_days
     = SrcIndexTs.Json500.
Proof.
  assert (Hin : In "days_held"%string field_names)
    by (cbn; repeat (first [left; reflexivity | right])).
  assert (Hout : ~ In "days_held"%string (map fst body_without_days)).
  { cbn. intros H.
    repeat match goal with
           | H : _ \/ _ |- _ => destruct H as [H | H]
           end; try discriminate; exact H. }
  assert (Hk : "k"%string <> ""%string) by discriminate.
  split; [exact Hin |]. split; [exact Hout |]. split; [exact Hk |].
  exact (proj2 (missing_field_is_rejected body_without_days
                  "days_held"%string "k"%string Hin Hout Hk)).
Defined.

Lemma unknown_key_is_ignored_witness :
  ~ In "memo"%string field_names
  /\ SrcIndexTs.ILInputSchema
       (("memo"%string, JSString "x") :: body_of Samples.round_trip)
     = Some Samples.round_trip.
Proof.
  assert (Hout : ~ In "memo"%string field_names).
  { cbn. intros H.
    repeat match goal with
           | H : _ \/ _ |- _ => destruct H as [H | H]
           end; try discriminate; exact H. }
  split; [exact Hout |].
  rewrite (unknown_key_is_ignored "memo"%string (JSString "x")
             (body_of Samples.round_trip) Hout).
  reflexivity.
Defined.

Lemma field_order_is_irrelevant_witness :
  NoDup (map fst (body_of Samples.round_trip))
  /\ Permutation (body_of Samples.round_trip)
       (rev (body_of Samples.round_trip))
  /\ SrcIndexTs.ILInputSchema (rev (body_of Samples.round_trip))
     = Some Samples.round_trip.
Proof.
  assert (Hnd : NoDup (map fst (body_of Samples.round_trip))).
  { cbn. repeat constructor; cbn; intros H;
      repeat match goal with
             | H : _ \/ _ |- _ => destruct H as [H | H]
             end; try discriminate; exact H. }
  assert (Hperm : Permutation (body_of Samples.round_trip)
                    (rev (body_of Samples.round_trip)))
    by apply Permutation_rev.
  split; [exact Hnd |]. split; [exact Hperm |].
  rewrite <- (proj1 (field_order_is_irrelevant _ _ Hnd Hperm)).
  reflexivity.
Defined.

(** * Further properties in binary64 *)

Section Binary64Laws.
Local Open Scope float_scope.

Lemma is_nan_Prim2SF (x : float) :
  PrimFloat.is_nan x = true <-> Prim2SF x = S754_nan.
Proof.
  unfold Prim2SF. destruct (PrimFloat.is_nan x); split; try reflexivity;
    try discriminate.
  destruct (PrimFloat.is_zero x); [discriminate |].
  destruct (PrimFloat.is_infinity x); [discriminate |].
  destruct (Z.frexp x) as [m e].
  destruct (shr_fexp prec emax _ _ _) as [shr e'].
  destruct (shr_m shr); discriminate.
Qed.

Lemma nonfinite_div_zero (x d : float) :
  d = 0 \/ d = -0 -> nonfinite (x / d).
Proof.
  intros Hd. unfold nonfinite. rewrite div_spec.
  destruct Hd as [-> | ->]; destruct (Prim2SF x); cbn; exact I.
Qed.

Lemma nonfinite_div (x y : float) : nonfinite x -> nonfinite (x / y).
Proof.
  unfold nonfinite. rewrite div_spec.
  destruct (Prim2SF x); try contradiction; intros _;
    destruct (Prim2SF y); cbn; exact I.
Qed.

Lemma nonfinite_mul_lit (x : float) (z : Z) :
  (z = 100 \/ z = 365)%Z -> nonfinite x -> nonfinite (x * Binary64.lit z).
Proof.
  unfold nonfinite. rewrite mul_spec.
  intros [-> | ->]; destruct (Prim2SF x); try contradiction; intros _;
    vm_compute; exact I.
Qed.

Lemma nonfinite_add (x y : float) :
  nonfinite x -> nonfinite y -> nonfinite (x + y).
Proof.
  unfold nonfinite. rewrite add_spec.
  destruct (Prim2SF x) as [| [|] | |]; try contradiction; intros _;
    destruct (Prim2SF y) as [| [|] | |]; try contradiction; intros _;
    cbn; exact I.
Qed.

Lemma toFixed2_nonfinite (x : float) :
  nonfinite x -> Binary64.toFixed2 x = x.
Proof.
  unfold nonfinite, Binary64.toFixed2.
  destruct (Prim2SF x); try contradiction; reflexivity.
Qed.

(** X16.  With [daysHeld] zero (of either sign) both programs return, for
    every other input whatsoever, a [fee_apr] and a [net_apr] that are NaN
    or an infinity, never a finite number; the rounding of
    [src/src/index.ts] passes them on unchanged. *)
Theorem zero_days_never_gives_a_finite_apr
    (r p0 p1 a0 a1 f d : float) :
  d = 0 \/ d = -0 ->
  let u := IndexTs.calculateImpermanentLoss r p0 p1 a0 a1 f d in
  let s := SrcIndexTs.calculateImpermanentLoss r p0 p1 a0 a1 f d in
  nonfinite (fee_apr u) /\ nonfinite (net_apr u)
  /\ fee_apr s = fee_apr u /\ net_apr s = net_apr u.
Proof.
  intros Hd u s.
  assert (Hfa : nonfinite (fee_apr u)).
  { subst u. unfold IndexTs.calculateImpermanentLoss.
    cbn [fee_apr js_mul js_div js_add js_lit Binary64.float_JSNumber].
    apply nonfinite_mul_lit; [left; reflexivity |].
    apply nonfinite_div.
    apply nonfinite_mul_lit; [right; reflexivity |].
    apply nonfinite_div_zero. exact Hd. }
  assert (Hna : nonfinite (net_apr u)).
  { change (net_apr u)
      with (fee_apr u + il_percentage u / d * Binary64.lit 365).
    apply nonfinite_add; [exact Hfa |].
    apply nonfinite_mul_lit; [right; reflexivity |].
    apply nonfinite_div_zero. exact Hd. }
  split; [exact Hfa |]. split; [exact Hna |]. split.
  - change (fee_apr s) with (Binary64.toFixed2 (fee_apr u)).
    apply toFixed2_nonfinite. exact Hfa.
  - change (net_apr s) with (Binary64.toFixed2 (net_apr u)).
    apply toFixed2_nonfinite. exact Hna.
Qed.

Lemma zero_days_never_gives_a_finite_apr_witness :
  (0 = 0 \/ 0 = -0)
  /\ nonfinite
       (net_apr (SrcIndexTs.calculateImpermanentLoss 1.5 2000 1 1 1 10 0)).
Proof.
  assert (Hd : 0 = 0 \/ 0 = -0) by (left; reflexivity).
  split; [exact Hd |].
  destruct (zero_days_never_gives_a_finite_apr 1.5 2000 1 1 1 10 0 Hd)
    as (_ & Hna & _ & Hs).
  rewrite Hs. exact Hna.
Defined.

Lemma ltb_nan_l (x y : float) :
  PrimFloat.is_nan x = true -> PrimFloat.ltb x y = false.
Proof.
  intros Hx. apply is_nan_Prim2SF in Hx.
  rewrite ltb_spec, Hx. reflexivity.
Qed.

Lemma ltb_nan_r (x y : float) :
  PrimFloat.is_nan y = true -> PrimFloat.ltb x y = false.
Proof.
  intros Hy. apply is_nan_Prim2SF in Hy.
  rewrite ltb_spec, Hy. unfold SFltb, SFcompare.
  destruct (Prim2SF x); reflexivity.
Qed.

Lemma nan_div (x y : float) :
  PrimFloat.is_nan x = true -> PrimFloat.is_nan (x / y) = true.
Proof.
  intros Hx. apply is_nan_Prim2SF in Hx. apply is_nan_Prim2SF.
  rewrite div_spec, Hx. reflexivity.
Qed.

Lemma nan_mul (x y : float) :
  PrimFloat.is_nan x = true -> PrimFloat.is_nan (x * y) = true.
Proof.
  intros Hx. apply is_nan_Prim2SF in Hx. apply is_nan_Prim2SF.
  rewrite mul_spec, Hx. reflexivity.
Qed.

Lemma nan_add_r (x y : float) :
  PrimFloat.is_nan y = true -> PrimFloat.is_nan (x + y) = true.
Proof.
  intros Hy. apply is_nan_Prim2SF in Hy. apply is_nan_Prim2SF.
  rewrite add_spec, Hy. unfold SF64add, SFadd.
  destruct (Prim2SF x); reflexivity.
Qed.

Lemma toFixed2_nan (x : float) :
  PrimFloat.is_nan x = true -> Binary64.toFixed2 x = x.
Proof.
  intros Hx. apply toFixed2_nonfinite. unfold nonfinite.
  apply is_nan_Prim2SF in Hx. rewrite Hx. exact I.
Qed.

(** The classifier on a NaN loss: every comparison fails. *)
Lemma classify_nan (il fa na : float) :
  PrimFloat.is_nan il = true -> PrimFloat.is_nan na = true ->
  Spec.classify il fa na = "Monitor position"%string
  /\ Spec.first_match [Spec.rule1 il fa; Spec.rule2 na] "Monitor position"
     = "Monitor position"%string.
Proof.
  intros Hil Hna.
  unfold Spec.classify, Spec.rule_table, Spec.rule1, Spec.rule2,
    Spec.rule3, Spec.rule4.
  cbn [Spec.first_match js_lt js_gt Binary64.float_JSNumber].
  rewrite !(ltb_nan_l _ _ Hil), !(ltb_nan_r _ _ Hna). split; reflexivity.
Qed.

(** A NaN loss makes the net APR NaN. *)
Lemma nan_net_apr (r p0 p1 a0 a1 f d : float) :
  let u := IndexTs.calculateImpermanentLoss r p0 p1 a0 a1 f d in
  PrimFloat.is_nan (il_percentage u) = true ->
  PrimFloat.is_nan (net_apr u) = true.
Proof.
  intros u Hil.
  change (net_apr u)
    with (fee_apr u + il_percentage u / d * Binary64.lit 365).
  apply nan_add_r. apply nan_mul. apply nan_div. exact Hil.
Qed.

(** X17.  When the loss percentage comes out as NaN (a negative price
    ratio, a position without value), no error is raised in either program:
    the record is returned with NaN in [il_percentage] and [net_apr], also
    after rounding, and the recommendation is "Monitor position". *)
Theorem nan_loss_is_reported_as_monitor (r p0 p1 a0 a1 f d : float) :
  let u := IndexTs.calculateImpermanentLoss r p0 p1 a0 a1 f d in
  let s := SrcIndexTs.calculateImpermanentLoss r p0 p1 a0 a1 f d in
  PrimFloat.is_nan (il_percentage u) = true ->
  PrimFloat.is_nan (net_apr u) = true
  /\ PrimFloat.is_nan (il_percentage s) = true
  /\ PrimFloat.is_nan (net_apr s) = true
  /\ recommendation u = "Monitor position"%string
  /\ recommendation s = "Monitor position"%string.
Proof.
  intros u s Hil.
  pose proof (nan_net_apr r p0 p1 a0 a1 f d Hil) as Hna. fold u in Hna.
  destruct (recommendation_by_table r p0 p1 a0 a1 f d) as [Hs Hu].
  cbv zeta in Hs, Hu. fold u in Hs, Hu. fold s in Hs.
  destruct (classify_nan _ (fee_apr u) _ Hil Hna) as [Hc5 Hc3].
  split; [exact Hna |]. split; [| split; [| split]].
  - change (il_percentage s) with (Binary64.toFixed2 (il_percentage u)).
    rewrite toFixed2_nan; assumption.
  - change (net_apr s) with (Binary64.toFixed2 (net_apr u)).
    rewrite toFixed2_nan; assumption.
  - rewrite Hu. exact Hc3.
  - rewrite Hs. exact Hc5.
Qed.

Lemma nan_loss_is_reported_as_monitor_witness :
  PrimFloat.is_nan (il_percentage (IndexTs.handler Samples.negative_ratio))
  = true
  /\ recommendation (SrcIndexTs.handler Samples.negative_ratio)
     = "Monitor position"%string.
Proof.
  assert (Hil : PrimFloat.is_nan
                  (il_percentage (IndexTs.handler Samples.negative_ratio))
                = true) by reflexivity.
  split; [exact Hil |].
  exact (proj2 (proj2 (proj2 (proj2
           (nan_loss_is_reported_as_monitor (-1) 2000 1 1 1 10 30 Hil))))).
Defined.








Lemma finite_mul_zero (x : float) : finite x -> zero (x * 0).
Proof.
  unfold finite, zero. rewrite mul_spec.
  destruct (Prim2SF x); try contradiction; intros _; exact I.
Qed.

Lemma zero_mul_finite (x y : float) : zero x -> finite y -> zero (x * y).
Proof.
  unfold finite, zero. rewrite mul_spec.
  destruct (Prim2SF x); try contradiction; intros _;
    destruct (Prim2SF y); try contradiction; intros _; exact I.
Qed.

Lemma zero_add (x y : float) : zero x -> zero y -> zero (x + y).
Proof.
  unfold zero. rewrite add_spec.
  destruct (Prim2SF x) as [[|] | | |]; try contradiction; intros _;
    destruct (Prim2SF y) as [[|] | | |]; try contradiction; intros _;
    exact I.
Qed.

Lemma any_mul_zero (x : float) : nan_or_zero (x * 0).
Proof.
  unfold nan_or_zero. rewrite mul_spec.
  destruct (Prim2SF x); exact I.
Qed.

Lemma nan_or_zero_mul_finite (x y : float) :
  nan_or_zero x -> finite y -> nan_or_zero (x * y).
Proof.
  unfold nan_or_zero, finite. rewrite mul_spec.
  destruct (Prim2SF x); try contradiction; intros _;
    destruct (Prim2SF y); try contradiction; intros _; exact I.
Qed.

Lemma nan_or_zero_add (x y : float) :
  nan_or_zero x -> nan_or_zero y -> nan_or_zero (x + y).
Proof.
  unfold nan_or_zero. rewrite add_spec.
  destruct (Prim2SF x) as [[|] | | |]; try contradiction; intros _;
    destruct (Prim2SF y) as [[|] | | |]; try contradiction; intros _;
    exact I.
Qed.

Lemma nan_or_zero_sub_zero (x y : float) :
  nan_or_zero x -> zero y -> nan_or_zero (x - y).
Proof.
  unfold nan_or_zero, zero. rewrite sub_spec.
  destruct (Prim2SF x) as [[|] | | |]; try contradiction; intros _;
    destruct (Prim2SF y) as [[|] | | |]; try contradiction; intros _;
    exact I.
Qed.

Lemma nan_or_zero_div_zero (x y : float) :
  nan_or_zero x -> zero y -> PrimFloat.is_nan (x / y) = true.
Proof.
  unfold nan_or_zero, zero. intros Hx Hy. apply is_nan_Prim2SF.
  rewrite div_spec.
  destruct (Prim2SF x); try contradiction;
    destruct (Prim2SF y); try contradiction; reflexivity.
Qed.

(** X19.  A position without value, both initial prices zero, with finite
    amounts and a finite price ratio, always gets [il_percentage = NaN]
    (0/0) from both programs, with the recommendation "Monitor position";
    no error is raised. *)
Theorem zero_value_position_gives_nan (r a0 a1 f d : float) :
  finite r -> finite a0 -> finite a1 ->
  let u := IndexTs.calculateImpermanentLoss r 0 0 a0 a1 f d in
  let s := SrcIndexTs.calculateImpermanentLoss r 0 0 a0 a1 f d in
  zero (hodl_value_usd u)
  /\ PrimFloat.is_nan (il_percentage u) = true
  /\ PrimFloat.is_nan (il_percentage s) = true
  /\ recommendation u = "Monitor position"%string
  /\ recommendation s = "Monitor position"%string.
Proof.
  intros Hr H0 H1 u s.
  assert (Hh : zero (hodl_value_usd u)).
  { subst u. unfold IndexTs.calculateImpermanentLoss.
    cbn [hodl_value_usd js_mul js_add Binary64.float_JSNumber].
    apply zero_add.
    - apply zero_mul_finite; [| exact Hr]. apply finite_mul_zero. exact H0.
    - apply finite_mul_zero. exact H1. }
  assert (Hcur : nan_or_zero (Spec.currentValueUsd r 0 0 a0 a1)).
  { unfold Spec.currentValueUsd.
    cbn [js_mul js_add Binary64.float_JSNumber].
    apply nan_or_zero_add.
    - apply nan_or_zero_mul_finite; [| exact Hr]. apply any_mul_zero.
    - apply any_mul_zero. }
  assert (Hil : PrimFloat.is_nan (il_percentage u) = true).
  { change (il_percentage u)
      with ((Spec.currentValueUsd r 0 0 a0 a1 - hodl_value_usd u)
            / hodl_value_usd u * Binary64.lit 100).
    apply nan_mul. apply nan_or_zero_div_zero; [| exact Hh].
    apply nan_or_zero_sub_zero; assumption. }
  pose proof (nan_net_apr r 0 0 a0 a1 f d Hil) as Hna. fold u in Hna.
  destruct (recommendation_by_table r 0 0 a0 a1 f d) as [Hs Hu].
  cbv zeta in Hs, Hu. fold u in Hs, Hu. fold s in Hs.
  destruct (classify_nan _ (fee_apr u) _ Hil Hna) as [Hc5 Hc3].
  split; [exact Hh |]. split; [exact Hil |]. split; [| split].
  - change (il_percentage s) with (Binary64.toFixed2 (il_percentage u)).
    rewrite toFixed2_nan; assumption.
  - rewrite Hu. exact Hc3.
  - rewrite Hs. exact Hc5.
Qed.

Lemma zero_value_position_gives_nan_witness :
  finite 1 /\ finite 2 /\ finite 3
  /\ PrimFloat.is_nan
       (il_percentage (SrcIndexTs.calculateImpermanentLoss 1 0 0 2 3 10 30))
     = true.
Proof.
  assert (H1 : finite 1) by exact I.
  assert (H2 : finite 2) by exact I.
  assert (H3 : finite 3) by exact I.
  split; [exact H1 |]. split; [exact H2 |]. split; [exact H3 |].
  destruct (zero_value_position_gives_nan 1 2 3 10 30 H1 H2 H3)
    as (_ & _ & H & _).
  exact H.
Defined.

End Binary64Laws.
